(** * SDVX Asphyxia to Kamaitachi converter: a shallow embedding of [main.py]

    The development follows the script function by function:
    [load_plays_database], [filter_user_scores], [convert_play],
    [save_results] and [main].  Python values produced by [json.loads] are
    modelled as a tree type [json]; Python exceptions as a small error
    monad [result]; the file system as a finite map from paths to files,
    with the ways a read and a write can fail.
    Library functions whose definition lies outside the repository
    ([json.loads], [int] and [repr] on strings, the printing of floats) are
    the fields of a class [PyBuiltins]; every property holds for all
    instances, and a sample instance runs the model on concrete inputs.
    Logging is not modelled, except where building a message can raise.
    A second model of [convert_play], over a store of mutable objects, is
    shown to compute what the tree model computes and carries the frame
    property. *)

From Stdlib Require Import ZArith Ascii Floats.SpecFloat.
From stdpp Require Import base option list strings pretty gmap.

(** ** Exceptions and the error monad *)

(** The exception classes the script can meet.  All of them derive from
    [Exception], so an [except Exception] clause catches every one. *)
Inductive exc :=
  | KeyError
  | TypeError
  | ValueError
  | OverflowError
  | AttributeError
  | JSONDecodeError
  | OSError
  | RecursionError
  | UnicodeDecodeError.

#[global] Instance exc_eq_dec : EqDecision exc.
Proof. solve_decision. Defined.

Inductive result (A : Type) :=
  | Ok (a : A)
  | Raise (e : exc).
Arguments Ok {A} a.
Arguments Raise {A} e.

#[global] Instance result_ret : MRet result := @Ok.
#[global] Instance result_bind : MBind result := λ A B f m,
  match m with Ok a => f a | Raise e => Raise e end.
#[global] Instance result_fmap : FMap result := λ A B f m,
  match m with Ok a => Ok (f a) | Raise e => Raise e end.

(** [[x for x in xs if p(x)]] when the test [p] may raise. *)
Fixpoint filter_result {A} (p : A → result bool) (xs : list A) : result (list A) :=
  match xs with
  | [] => Ok []
  | x :: rest =>
      b ← p x;
      rest' ← filter_result p rest;
      Ok (if b : bool then x :: rest' else rest')
  end.

(** ** Python values *)

(** A Python [float] is a binary64 number. *)
Definition float := spec_float.

Definition sign_apply (s : bool) (m : Z) : Z := if s then (- m)%Z else m.

(** [f > 0] for a float [f]. *)
Definition float_gt_zero (f : float) : bool :=
  match f with
  | S754_zero _ => false
  | S754_infinity s => negb s
  | S754_nan => false
  | S754_finite s _ _ => negb s
  end.

(** [int(f)]: truncation towards zero; [nan] and the infinities raise. *)
Definition float_trunc (f : float) : result Z :=
  match f with
  | S754_zero _ => Ok 0%Z
  | S754_infinity _ => Raise OverflowError
  | S754_nan => Raise ValueError
  | S754_finite s m e => Ok (sign_apply s (Z.shiftl (Z.pos m) e))
  end.

(** [f == k] for a float [f] and an int [k]; Python compares the two
    exactly (and hashes them alike when they are equal). *)
Definition float_eq_int (f : float) (k : Z) : bool :=
  match f with
  | S754_zero _ => (k =? 0)%Z
  | S754_infinity _ | S754_nan => false
  | S754_finite s m e =>
      if (0 <=? e)%Z then (sign_apply s (Z.pos m * 2 ^ e) =? k)%Z
      else (sign_apply s (Z.pos m) =? k * 2 ^ (- e))%Z
  end.

(** Immutable values: [None], [bool], [int], [float], [str]. *)
Inductive atom :=
  | ANone
  | ABool (b : bool)
  | AInt (n : Z)
  | AFloat (f : float)
  | AStr (s : string).

(** What [json.loads] returns: an atom, a [list] or a [dict] with [str]
    keys (kept in insertion order). *)
#[local] Unset Elimination Schemes.
Inductive json :=
  | JAtom (a : atom)
  | JList (items : list json)
  | JDict (entries : list (string * json)).
#[local] Set Elimination Schemes.

Abbreviation JNone := (JAtom ANone).
Abbreviation JBool b := (JAtom (ABool b)).
Abbreviation JInt n := (JAtom (AInt n)).
Abbreviation JFloat f := (JAtom (AFloat f)).
Abbreviation JStr s := (JAtom (AStr s)).

(** Library functions of CPython that the script calls and whose full
    definition lies outside the repository (they depend on the Unicode
    tables and on the float printing algorithm). *)
Class PyBuiltins := {
  (** [json.loads(line)]: the value returned, or [None] when the call
      raises. *)
  json_loads : string → option json;
  (** The exception [json.loads(line)] raises when it returns no value:
      [json.JSONDecodeError] on a text that is not valid JSON, but also
      [RecursionError] on a text nested too deeply and [ValueError] on an
      integer literal with too many digits. *)
  json_loads_error : string → exc;
  (** [int(s)] for a [str]; [None] stands for [ValueError]. *)
  int_of_str : string → option Z;
  (** [repr(f)] for a finite [float]. *)
  repr_float : float → string;
  (** [repr(s)] for a [str]. *)
  repr_str : string → string;
  (** The JSON string literal for [s], as [json.dump] writes it. *)
  json_quote : string → string;
}.

Definition bool_to_Z (b : bool) : Z := if b then 1%Z else 0%Z.

Section atoms.
Context `{PyBuiltins}.

(** [int(a)] *)
Definition atom_int (a : atom) : result Z :=
  match a with
  | ANone => Raise TypeError
  | ABool b => Ok (bool_to_Z b)
  | AInt n => Ok n
  | AFloat f => float_trunc f
  | AStr s => match int_of_str s with Some n => Ok n | None => Raise ValueError end
  end.

(** [a > 0] *)
Definition atom_gt_zero (a : atom) : result bool :=
  match a with
  | ANone | AStr _ => Raise TypeError
  | ABool b => Ok b
  | AInt n => Ok (0 <? n)%Z
  | AFloat f => Ok (float_gt_zero f)
  end.

(** [a == k] for an int [k] *)
Definition atom_eq_int (a : atom) (k : Z) : bool :=
  match a with
  | ANone | AStr _ => false
  | ABool b => (bool_to_Z b =? k)%Z
  | AInt n => (n =? k)%Z
  | AFloat f => float_eq_int f k
  end.

(** [a == s] for a str [s] *)
Definition atom_eq_str (a : atom) (s : string) : bool :=
  match a with
  | AStr t => bool_decide (t = s)
  | _ => false
  end.

Definition repr_special_float (f : float) (nan inf : string) : string :=
  match f with
  | S754_nan => nan
  | S754_infinity s => if s then "-" +:+ inf else inf
  | _ => repr_float f
  end.

(** [str(a)].  (CPython 3.11 and later refuse to convert between [int]
    and [str] beyond 4300 digits; the integers of a record, read from JSON
    text or obtained by [int], are within that limit, and the conversion is
    taken as total.) *)
Definition atom_str (a : atom) : string :=
  match a with
  | ANone => "None"
  | ABool b => if b then "True" else "False"
  | AInt n => pretty n
  | AFloat f => repr_special_float f "nan" "inf"
  | AStr s => s
  end.

(** [repr(a)] *)
Definition atom_repr (a : atom) : string :=
  match a with
  | AStr s => repr_str s
  | _ => atom_str a
  end.

(** [json.dumps(a)] *)
Definition atom_dumps (a : atom) : string :=
  match a with
  | ANone => "null"
  | ABool b => if b then "true" else "false"
  | AInt n => pretty n
  | AFloat f => repr_special_float f "NaN" "Infinity"
  | AStr s => json_quote s
  end.
End atoms.

(** ** Operations on [json] values *)

(** Lookup in the entries of a [dict]. *)
Fixpoint dict_lookup {V} (k : string) (entries : list (string * V)) : option V :=
  match entries with
  | [] => None
  | (k', v) :: rest => if bool_decide (k' = k) then Some v else dict_lookup k rest
  end.

(** [d[k] = v] on the entries of a [dict]: an existing key keeps its
    place, a new key goes last. *)
Fixpoint dict_set {V} (k : string) (v : V) (entries : list (string * V))
    : list (string * V) :=
  match entries with
  | [] => [(k, v)]
  | (k', v') :: rest =>
      if bool_decide (k' = k) then (k', v) :: rest else (k', v') :: dict_set k v rest
  end.

(** [x[k]] for a str key [k]: only a [dict] can be indexed by a [str]. *)
Definition getitem (x : json) (k : string) : result json :=
  match x with
  | JDict entries =>
      match dict_lookup k entries with Some v => Ok v | None => Raise KeyError end
  | _ => Raise TypeError
  end.

(** [x.get(k, d)]: only a [dict] has the method. *)
Definition py_get (x : json) (k : string) (d : json) : result json :=
  match x with
  | JDict entries => Ok (default d (dict_lookup k entries))
  | _ => Raise AttributeError
  end.

(** [x[k] = v] for a str key [k]. *)
Definition setitem (x : json) (k : string) (v : json) : result json :=
  match x with
  | JDict entries => Ok (JDict (dict_set k v entries))
  | _ => Raise TypeError
  end.

(** [x == s] for a str [s]. *)
Definition py_eq_str (x : json) (s : string) : bool :=
  match x with
  | JAtom a => atom_eq_str a s
  | _ => false
  end.

(** [x > 0] *)
Definition py_gt_zero (x : json) : result bool :=
  match x with
  | JAtom a => atom_gt_zero a
  | _ => Raise TypeError
  end.

(** Truth value of what [convert_play] returns: [None] and the empty
    [dict] are false. *)
Definition truthy (x : option json) : bool :=
  match x with
  | None => false
  | Some (JAtom ANone) | Some (JAtom (ABool false)) => false
  | Some (JAtom (ABool true)) => true
  | Some (JAtom (AInt n)) => negb (n =? 0)%Z
  | Some (JAtom (AFloat f)) =>
      match f with S754_zero _ => false | _ => true end
  | Some (JAtom (AStr s)) => negb (bool_decide (s = ""))
  | Some (JList items) => negb (bool_decide (items = []))
  | Some (JDict entries) => match entries with [] => false | _ => true end
  end.

(** *** Dictionaries with [int] keys: the two enumeration tables *)

Definition int_table := list (Z * string).

Fixpoint table_lookup (a : atom) (tbl : int_table) : option string :=
  match tbl with
  | [] => None
  | (k, label) :: rest => if atom_eq_int a k then Some label else table_lookup a rest
  end.

(** [x in tbl]: hashing a [list] or a [dict] raises. *)
Definition table_contains (x : json) (tbl : int_table) : result bool :=
  match x with
  | JAtom a => Ok (bool_decide (is_Some (table_lookup a tbl)))
  | _ => Raise TypeError
  end.

(** [tbl[x]] *)
Definition table_getitem (x : json) (tbl : int_table) : result string :=
  match x with
  | JAtom a =>
      match table_lookup a tbl with Some label => Ok label | None => Raise KeyError end
  | _ => Raise TypeError
  end.

Section values.
Context `{PyBuiltins}.

(** [int(x)] *)
Definition py_int (x : json) : result Z :=
  match x with
  | JAtom a => atom_int a
  | _ => Raise TypeError
  end.

Definition join_comma (parts : list string) : string :=
  String.concat ", " parts.

(** [repr(x)] *)
Fixpoint py_repr (x : json) : string :=
  match x with
  | JAtom a => atom_repr a
  | JList items => "[" +:+ join_comma (map py_repr items) +:+ "]"
  | JDict entries =>
      "{" +:+ join_comma (map (λ '(k, v), repr_str k +:+ ": " +:+ py_repr v) entries)
          +:+ "}"
  end.

(** [str(x)] *)
Definition py_str (x : json) : string :=
  match x with
  | JAtom a => atom_str a
  | _ => py_repr x
  end.

(** [json.dumps(x)] with the default separators. *)
Fixpoint json_dumps (x : json) : string :=
  match x with
  | JAtom a => atom_dumps a
  | JList items => "[" +:+ join_comma (map json_dumps items) +:+ "]"
  | JDict entries =>
      "{" +:+ join_comma (map (λ '(k, v), json_quote k +:+ ": " +:+ json_dumps v) entries)
          +:+ "}"
  end.
End values.

(** ** Constants of the script *)

Definition META : json :=
  JDict [("game", JStr "sdvx"); ("playtype", JStr "Single"); ("service", JStr "Asphyxia")].

Definition CLEAR_TYPE_MAP : int_table :=
  [(1, "FAILED"); (2, "CLEAR"); (3, "EXCESSIVE CLEAR"); (4, "ULTIMATE CHAIN");
   (5, "PERFECT ULTIMATE CHAIN"); (6, "MAXXIVE CLEAR")]%Z.

Definition DIFFICULTY_MAP : int_table :=
  [(0, "NOV"); (1, "ADV"); (2, "EXH"); (3, "ANY_INF"); (4, "MXM")]%Z.

(** The configuration constants, gathered in a record. *)
Record config := {
  DATABASE_PATH : string;
  ASPHYXIA_PROFILE_ID : string;
  PRESERVE_FAILS : bool;
  OUTPUT_FILE : string;
}.

Definition default_config : config := {|
  DATABASE_PATH := "sdvx@asphyxia.db";
  ASPHYXIA_PROFILE_ID := "ACA11374C2D83E9A";
  PRESERVE_FAILS := true;
  OUTPUT_FILE := "output.json";
|}.

(** ** [convert_play] *)

Section convert.
Context `{PyBuiltins}.

(** The statements inside the [try]. *)
Definition convert_play_body (play : json) : result (option json) :=
  score ← getitem play "score" ≫= py_int;
  exscore_raw ← py_get play "exscore" (JInt 0);
  positive ← py_gt_zero exscore_raw;
  exscore ← (if positive : bool
             then Some <$> (getitem play "exscore" ≫= py_int)
             else Ok None);
  song_id ← py_str <$> getitem play "mid";
  time_achieved ← (getitem play "createdAt" ≫= λ c, getitem c "$$date") ≫= py_int;
  (* Clear type *)
  clear_type ← getitem play "clear";
  known ← table_contains clear_type CLEAR_TYPE_MAP;
  if negb known then Ok None else
  lamp ← table_getitem clear_type CLEAR_TYPE_MAP;
  (* Chart difficulty *)
  difficulty_type ← getitem play "type";
  known ← table_contains difficulty_type DIFFICULTY_MAP;
  if negb known then
    (* the warning formats [play['difficulty']] before the [return] *)
    _ ← getitem play "difficulty"; Ok None
  else
  difficulty ← table_getitem difficulty_type DIFFICULTY_MAP;
  (* Build output *)
  let output := JDict [("matchType", JStr "sdvxInGameID");
                       ("identifier", JStr song_id);
                       ("score", JInt score);
                       ("lamp", JStr lamp);
                       ("difficulty", JStr difficulty);
                       ("timeAchieved", JInt time_achieved)] in
  match exscore with
  | Some n =>
      if (0 <? n)%Z then
        output ← setitem output "optional" (JDict []);
        (* [output["optional"]["exScore"] = int(exscore)] updates the inner
           dict in place *)
        inner ← getitem output "optional";
        inner ← setitem inner "exScore" (JInt n);
        output ← setitem output "optional" inner;
        Ok (Some output)
      else Ok (Some output)
  | None => Ok (Some output)
  end.

(** [except Exception]: the error is logged and [None] returned. *)
Definition convert_play (play : json) : result (option json) :=
  match convert_play_body play with
  | Ok r => Ok r
  | Raise e => Ok None
  end.
End convert.

(** ** The file system *)

(** A text file as the script sees it: the text the reads deliver,
    whether reading past that text fails, and the exception that failure
    raises: [OSError] for a failing device, [UnicodeDecodeError] for bytes
    that are not UTF-8.  Reads proceed block by block, and a block that
    fails delivers nothing: [f_text] is the decoded text of the blocks
    before it.  [f_error] has no meaning for a file that reads to its
    end. *)
Record file := {
  f_text : string;
  f_fails : bool;
  f_error : exc;
}.

(** Paths are plain strings.  A path absent from [fs_files] cannot be
    opened for reading; a path in [fs_locked] cannot be opened for
    writing.  A path in [fs_cut] can be opened for writing, but the
    writing fails (in a [write] or in the closing flush) when no more than
    the given number of characters have reached the file. *)
Record filesystem := {
  fs_files : gmap string file;
  fs_locked : gset string;
  fs_cut : gmap string nat;
}.

Definition LF : ascii := "010"%char.
Definition CR : ascii := "013"%char.
Definition DQ : ascii := "034"%char.

(** Iterating over a file opened in text mode: the lines, each with its
    terminator translated to a line feed (universal newlines). *)
Fixpoint text_lines_from (cur : string) (s : string) : list string :=
  match s with
  | EmptyString => if bool_decide (cur = "") then [] else [cur]
  | String c rest =>
      if bool_decide (c = LF) then (cur +:+ String LF "") :: text_lines_from "" rest
      else if bool_decide (c = CR) then
        match rest with
        | String c' rest' =>
            if bool_decide (c' = LF)
            then (cur +:+ String LF "") :: text_lines_from "" rest'
            else (cur +:+ String LF "") :: text_lines_from "" rest
        | EmptyString => [cur +:+ String LF ""]
        end
      else text_lines_from (cur +:+ String c "") rest
  end.

Definition text_lines (s : string) : list string := text_lines_from "" s.

(** The lines an iteration yields before a read of the file fails: those
    whose terminator has been read.  The characters after the last
    terminator are never yielded, and a carriage return at the very end is
    held back until the next character is known. *)
Fixpoint lines_before_failure_from (cur : string) (s : string) : list string :=
  match s with
  | EmptyString => []
  | String c rest =>
      if bool_decide (c = LF)
      then (cur +:+ String LF "") :: lines_before_failure_from "" rest
      else if bool_decide (c = CR) then
        match rest with
        | String c' rest' =>
            if bool_decide (c' = LF)
            then (cur +:+ String LF "") :: lines_before_failure_from "" rest'
            else (cur +:+ String LF "") :: lines_before_failure_from "" rest
        | EmptyString => []
        end
      else lines_before_failure_from (cur +:+ String c "") rest
  end.

Definition lines_before_failure (s : string) : list string :=
  lines_before_failure_from "" s.

(** [for line in db_file]: the lines the iteration yields, before it ends
    or raises. *)
Definition file_lines (f : file) : list string :=
  if f_fails f then lines_before_failure (f_text f) else text_lines (f_text f).

(** The first [n] characters of a text. *)
Fixpoint text_prefix (n : nat) (s : string) : string :=
  match n, s with
  | S n', String c rest => String c (text_prefix n' rest)
  | _, _ => EmptyString
  end.

(** What a file holds once [text] has been written to it: all of it, or
    its first characters when the writing is cut short. *)
Definition written (cut : option nat) (text : string) : string :=
  match cut with
  | Some n => text_prefix n text
  | None => text
  end.

(** [path.open("r")] *)
Definition open_read (fs : filesystem) (path : string) : result file :=
  match fs_files fs !! path with
  | Some f => Ok f
  | None => Raise OSError
  end.

(** [path.open("w")] followed by writing [text] and closing.  A failing
    [open] leaves the file system as it is.  A successful [open] truncates
    the file; a failure after it (in a [write] or in the closing flush)
    leaves the characters written so far in the file. *)
Definition write_text (fs : filesystem) (path : string) (text : string)
    : result unit * filesystem :=
  if bool_decide (path ∈ fs_locked fs) then (Raise OSError, fs)
  else
    let cut := fs_cut fs !! path in
    (match cut with Some _ => Raise OSError | None => Ok () end,
     {| fs_files := <[path := {| f_text := written cut text;
                                 f_fails := false;
                                 f_error := OSError |}]> (fs_files fs);
        fs_locked := fs_locked fs;
        fs_cut := fs_cut fs |}).

(** ** The pipeline *)

Section pipeline.
Context `{PyBuiltins}.

(** [json.loads(line)], with the exception it raises. *)
Definition parse_line (line : string) : result json :=
  match json_loads line with
  | Some x => Ok x
  | None => Raise (json_loads_error line)
  end.

(** The end of the iteration over the file: the pending read error, of
    the class the file gives it. *)
Definition end_of_file (f : file) : result unit :=
  if f_fails f then Raise (f_error f) else Ok ().

Definition is_music (play : json) : result bool :=
  c ← py_get play "collection" JNone;
  Ok (py_eq_str c "music").

(** [load_plays_database]: both handlers log and re-raise. *)
Definition load_plays_database (fs : filesystem) (db_path : string) : result (list json) :=
  let body :=
    db_file ← open_read fs db_path;
    data_points ← mapM parse_line (file_lines db_file);
    _ ← end_of_file db_file;
    plays ← filter_result is_music data_points;
    Ok plays in
  match body with
  | Ok plays => Ok plays
  | Raise JSONDecodeError => Raise JSONDecodeError
  | Raise e => Raise e
  end.

Definition is_user_score (profile_id : string) (point : json) : result bool :=
  r ← py_get point "__refid" JNone;
  if py_eq_str r profile_id then
    s ← py_get point "__s" JNone;
    Ok (py_eq_str s "plugins_profile")
  else Ok false.

(** [filter_user_scores] *)
Definition filter_user_scores (scores : list json) (profile_id : string)
    : result (list json) :=
  filter_result (is_user_score profile_id) scores.

(** The test guarding [score_results.append(score_info)]. *)
Definition keeps (preserve_fails : bool) (score_info : option json) : result bool :=
  match score_info with
  | Some info =>
      if truthy score_info then
        if preserve_fails then Ok true
        else lamp ← getitem info "lamp"; Ok (negb (py_eq_str lamp "FAILED"))
      else Ok false
  | None => Ok false
  end.

(** The [for] loop of [main], with [score_results] as accumulator. *)
Fixpoint convert_scores (preserve_fails : bool) (plays_for_user : list json)
    (score_results : list json) : result (list json) :=
  match plays_for_user with
  | [] => Ok score_results
  | play :: rest =>
      score_info ← convert_play play;
      keep ← keeps preserve_fails score_info;
      convert_scores preserve_fails rest
        (match score_info with
         | Some info => if keep : bool then score_results ++ [info] else score_results
         | None => score_results
         end)
  end.

(** [save_results]: any error is logged, none leaves the function. *)
Definition save_results (results : json) (output_path : string) (fs : filesystem)
    : result unit * filesystem :=
  match write_text fs output_path (json_dumps results) with
  | (Ok _, fs') => (Ok (), fs')
  | (Raise e, fs') => (Ok (), fs')
  end.

(** What [main] computes before it writes: the final [result] dict. *)
Definition final_result (cfg : config) (fs : filesystem) : result json :=
  data_points ← load_plays_database fs (DATABASE_PATH cfg);
  plays_for_user ← filter_user_scores data_points (ASPHYXIA_PROFILE_ID cfg);
  score_results ← convert_scores (PRESERVE_FAILS cfg) plays_for_user [];
  Ok (JDict [("meta", META); ("scores", JList score_results)]).

(** [main] *)
Definition main (cfg : config) (fs : filesystem) : result unit * filesystem :=
  match final_result cfg fs with
  | Ok result => save_results result (OUTPUT_FILE cfg) fs
  | Raise e => (Raise e, fs)
  end.
End pipeline.

(** ** A sample interpretation of the library functions

    Used to run the model on concrete lines.  [sample_loads] reads the
    JSON texts made of objects, arrays, integers without fraction or
    exponent, the literals [true], [false], [null] and strings of printable
    ASCII characters without escapes, and returns on them the value
    [json.loads] returns; it rejects every other text, as a parse
    error.  [sample_int] reads an optional sign followed by ASCII digits.
    The three printing
    functions are exact on strings free of quotes, backslashes and
    non-printable characters, and on the float zero. *)

Definition is_ws (c : ascii) : bool :=
  bool_decide (c = " "%char) || bool_decide (c = "009"%char)
  || bool_decide (c = LF) || bool_decide (c = CR).

Fixpoint skip_ws (s : string) : string :=
  match s with
  | String c rest => if is_ws c then skip_ws rest else s
  | EmptyString => s
  end.

Definition digit_of (c : ascii) : option Z :=
  let n := Z.of_N (N_of_ascii c) in
  if ((48 <=? n) && (n <=? 57))%Z then Some (n - 48)%Z else None.

Fixpoint take_digits (acc : Z) (s : string) : Z * string :=
  match s with
  | String c rest =>
      match digit_of c with
      | Some d => take_digits (10 * acc + d)%Z rest
      | None => (acc, s)
      end
  | EmptyString => (acc, s)
  end.

(** An unsigned JSON integer: [0], or a non-zero digit and more digits;
    a following fraction or exponent makes the number a float. *)
Definition parse_uint (s : string) : option (Z * string) :=
  match s with
  | String c rest =>
      match digit_of c with
      | Some d =>
          let '(n, rest') := if (d =? 0)%Z then (0%Z, rest) else take_digits d rest in
          match rest' with
          | String c' _ =>
              if bool_decide (c' = "."%char) || bool_decide (c' = "e"%char)
                 || bool_decide (c' = "E"%char)
              then None else Some (n, rest')
          | EmptyString => Some (n, rest')
          end
      | None => None
      end
  | EmptyString => None
  end.

(** The characters of a string literal up to the closing quote. *)
Fixpoint parse_chars (s : string) : option (string * string) :=
  match s with
  | String c rest =>
      let n := Z.of_N (N_of_ascii c) in
      if bool_decide (c = DQ) then Some (EmptyString, rest)
      else if bool_decide (c = "\"%char) || (n <? 32)%Z || (126 <? n)%Z then None
      else '(body, rest') ← parse_chars rest; Some (String c body, rest')
  | EmptyString => None
  end.

Definition expect (c : ascii) (s : string) : option string :=
  match skip_ws s with
  | String c' rest => if bool_decide (c' = c) then Some rest else None
  | EmptyString => None
  end.

Definition parse_key (s : string) : option (string * string) :=
  rest ← expect DQ s;
  '(k, rest) ← parse_chars rest;
  rest ← expect ":"%char rest;
  Some (k, rest).

Fixpoint parse_value (fuel : nat) (s : string) : option (json * string) :=
  match fuel with
  | O => None
  | S fuel =>
      match skip_ws s with
      | String "{" rest =>
          match skip_ws rest with
          | String "}" rest' => Some (JDict [], rest')
          | _ =>
              '(k, rest) ← parse_key rest;
              '(v, rest) ← parse_value fuel rest;
              parse_members fuel [(k, v)] rest
          end
      | String "[" rest =>
          match skip_ws rest with
          | String "]" rest' => Some (JList [], rest')
          | _ =>
              '(v, rest) ← parse_value fuel rest;
              parse_elements fuel [v] rest
          end
      | String "034" rest => '(str, rest') ← parse_chars rest; Some (JStr str, rest')
      | String "-" rest => '(n, rest') ← parse_uint rest; Some (JInt (- n), rest')
      | String "t" (String "r" (String "u" (String "e" rest))) => Some (JBool true, rest)
      | String "f" (String "a" (String "l" (String "s" (String "e" rest)))) =>
          Some (JBool false, rest)
      | String "n" (String "u" (String "l" (String "l" rest))) => Some (JNone, rest)
      | s' => '(n, rest') ← parse_uint s'; Some (JInt n, rest')
      end
  end
with parse_members (fuel : nat) (acc : list (string * json)) (s : string)
    : option (json * string) :=
  match fuel with
  | O => None
  | S fuel =>
      match skip_ws s with
      | String "}" rest => Some (JDict acc, rest)
      | String "," rest =>
          '(k, rest) ← parse_key rest;
          '(v, rest) ← parse_value fuel rest;
          parse_members fuel (dict_set k v acc) rest
      | _ => None
      end
  end
with parse_elements (fuel : nat) (acc : list json) (s : string)
    : option (json * string) :=
  match fuel with
  | O => None
  | S fuel =>
      match skip_ws s with
      | String "]" rest => Some (JList acc, rest)
      | String "," rest =>
          '(v, rest) ← parse_value fuel rest;
          parse_elements fuel (acc ++ [v]) rest
      | _ => None
      end
  end.

Definition sample_loads (s : string) : option json :=
  '(v, rest) ← parse_value (2 * String.length s + 2) s;
  if bool_decide (skip_ws rest = "") then Some v else None.

Definition sample_int (s : string) : option Z :=
  let signed (neg : bool) (digits : string) :=
    match digits with
    | EmptyString => None
    | _ => match take_digits 0 digits with
           | (n, EmptyString) => Some (if neg then (- n)%Z else n)
           | _ => None
           end
    end in
  match s with
  | String "-" rest => signed true rest
  | String "+" rest => signed false rest
  | _ => signed false s
  end.

Definition sample_builtins : PyBuiltins := {|
  json_loads := sample_loads;
  json_loads_error _ := JSONDecodeError;
  int_of_str := sample_int;
  repr_float f :=
    match f with
    | S754_zero s => if s then "-0.0" else "0.0"
    | _ => "<float>"
    end;
  repr_str s := "'" +:+ s +:+ "'";
  json_quote s := String DQ s +:+ String DQ "";
|}.

(** ** [convert_play] over a store of mutable objects

    Lists and dicts are objects with an identity: a value is an atom or
    a reference to an object of the store, and an assignment [x[k] = v]
    updates the object in place, for every holder of the reference. *)

Definition loc := nat.

Inductive val :=
  | VAtom (a : atom)
  | VRef (l : loc).

Inductive obj :=
  | OList (items : list val)
  | ODict (entries : list (string * val)).

(** The address of an object is its index; new objects go last. *)
Definition store := list obj.

(** The tree a value stands for, read down to [depth] levels of
    objects. *)
Fixpoint reify (depth : nat) (st : store) (v : val) : option json :=
  match v with
  | VAtom a => Some (JAtom a)
  | VRef l =>
      match depth with
      | O => None
      | S depth =>
          match st !! l with
          | Some (OList items) => JList <$> mapM (reify depth st) items
          | Some (ODict entries) =>
              JDict <$> mapM (λ '(k, x), pair k <$> reify depth st x) entries
          | None => None
          end
      end
  end.

(** Building the objects of a sequence of trees, one after the other. *)
Fixpoint alloc_all {A B} (f : A → store → B * store) (xs : list A) (st : store)
    : list B * store :=
  match xs with
  | [] => ([], st)
  | x :: rest =>
      let '(v, st) := f x st in
      let '(vs, st) := alloc_all f rest st in
      (v :: vs, st)
  end.

(** Building the objects of a tree, children first, as [json.loads]
    does. *)
Fixpoint alloc (x : json) (st : store) : val * store :=
  match x with
  | JAtom a => (VAtom a, st)
  | JList items =>
      let '(vs, st) := alloc_all alloc items st in
      (VRef (length st), st ++ [OList vs])
  | JDict entries =>
      let '(es, st) :=
        alloc_all (λ '(k, x) st, let '(v, st) := alloc x st in ((k, v), st)) entries st in
      (VRef (length st), st ++ [ODict es])
  end.

(** The number of nested objects of a tree. *)
Fixpoint json_depth (x : json) : nat :=
  match x with
  | JAtom _ => 0
  | JList items => S (foldr (λ x n, json_depth x `max` n) 0 items)
  | JDict entries => S (foldr (λ '(_, x) n, json_depth x `max` n) 0 entries)
  end.

Definition st_getitem (st : store) (x : val) (k : string) : result val :=
  match x with
  | VRef l =>
      match st !! l with
      | Some (ODict entries) =>
          match dict_lookup k entries with Some v => Ok v | None => Raise KeyError end
      | _ => Raise TypeError
      end
  | VAtom _ => Raise TypeError
  end.

Definition st_get (st : store) (x : val) (k : string) (d : val) : result val :=
  match x with
  | VRef l =>
      match st !! l with
      | Some (ODict entries) => Ok (default d (dict_lookup k entries))
      | _ => Raise AttributeError
      end
  | VAtom _ => Raise AttributeError
  end.

(** [x[k] = v]: the object [x] refers to is updated where it is. *)
Definition st_setitem (st : store) (x : val) (k : string) (v : val) : result store :=
  match x with
  | VRef l =>
      match st !! l with
      | Some (ODict entries) => Ok (<[l := ODict (dict_set k v entries)]> st)
      | _ => Raise TypeError
      end
  | VAtom _ => Raise TypeError
  end.

Definition val_gt_zero (x : val) : result bool :=
  match x with
  | VAtom a => atom_gt_zero a
  | VRef _ => Raise TypeError
  end.

Definition val_table_contains (x : val) (tbl : int_table) : result bool :=
  match x with
  | VAtom a => Ok (bool_decide (is_Some (table_lookup a tbl)))
  | VRef _ => Raise TypeError
  end.

Definition val_table_getitem (x : val) (tbl : int_table) : result string :=
  match x with
  | VAtom a =>
      match table_lookup a tbl with Some label => Ok label | None => Raise KeyError end
  | VRef _ => Raise TypeError
  end.

(** Computations that read and update the store and may raise. *)
Definition stM (A : Type) : Type := store → result A * store.

#[global] Instance stM_ret : MRet stM := λ A a st, (Ok a, st).
#[global] Instance stM_bind : MBind stM := λ A B f m st,
  match m st with
  | (Ok a, st') => f a st'
  | (Raise e, st') => (Raise e, st')
  end.

(** A step that only reads the store. *)
Definition reading {A} (f : store → result A) : stM A := λ st, (f st, st).

(** A dict display [{k1: v1, ...}]: a new object. *)
Definition new_dict (entries : list (string * val)) : stM val :=
  λ st, (Ok (VRef (length st)), st ++ [ODict entries]).

Definition assign_item (x : val) (k : string) (v : val) : stM unit := λ st,
  match st_setitem st x k v with
  | Ok st' => (Ok (), st')
  | Raise e => (Raise e, st)
  end.

Section store_convert.
Context `{PyBuiltins}.
(** How many levels of objects [str] and [repr] descend before the
    interpreter gives up. *)
Variable depth : nat.

Definition val_int (x : val) : result Z :=
  match x with
  | VAtom a => atom_int a
  | VRef _ => Raise TypeError
  end.

Definition st_str (st : store) (x : val) : result string :=
  match reify depth st x with
  | Some j => Ok (py_str j)
  | None => Raise RecursionError
  end.

Definition st_convert_play_body (play : val) : stM (option val) :=
  score ← reading (λ st, st_getitem st play "score" ≫= val_int);
  exscore_raw ← reading (λ st, st_get st play "exscore" (VAtom (AInt 0)));
  positive ← reading (λ _, val_gt_zero exscore_raw);
  exscore ← (if positive : bool
             then reading (λ st, Some <$> (st_getitem st play "exscore" ≫= val_int))
             else mret None);
  song_id ← reading (λ st, st_getitem st play "mid" ≫= st_str st);
  time_achieved ← reading (λ st,
    (st_getitem st play "createdAt" ≫= λ c, st_getitem st c "$$date") ≫= val_int);
  clear_type ← reading (λ st, st_getitem st play "clear");
  known ← reading (λ _, val_table_contains clear_type CLEAR_TYPE_MAP);
  if negb known then mret None else
  lamp ← reading (λ _, val_table_getitem clear_type CLEAR_TYPE_MAP);
  difficulty_type ← reading (λ st, st_getitem st play "type");
  known ← reading (λ _, val_table_contains difficulty_type DIFFICULTY_MAP);
  if negb known then
    _ ← reading (λ st, st_getitem st play "difficulty"); mret None
  else
  difficulty ← reading (λ _, val_table_getitem difficulty_type DIFFICULTY_MAP);
  output ← new_dict [("matchType", VAtom (AStr "sdvxInGameID"));
                     ("identifier", VAtom (AStr song_id));
                     ("score", VAtom (AInt score));
                     ("lamp", VAtom (AStr lamp));
                     ("difficulty", VAtom (AStr difficulty));
                     ("timeAchieved", VAtom (AInt time_achieved))];
  match exscore with
  | Some n =>
      if (0 <? n)%Z then
        empty ← new_dict [];
        _ ← assign_item output "optional" empty;
        inner ← reading (λ st, st_getitem st output "optional");
        _ ← assign_item inner "exScore" (VAtom (AInt n));
        mret (Some output)
      else mret (Some output)
  | None => mret (Some output)
  end.

Definition st_convert_play (play : val) : stM (option val) := λ st,
  match st_convert_play_body play st with
  | (Ok r, st') => (Ok r, st')
  | (Raise e, st') => (Ok None, st')
  end.
End store_convert.

(** The outcome of [x[k]] in the store and on the tree read from [x]. *)
Definition same_item (d : nat) (st : store) (r : result val) (p : result json) : Prop :=
  match r with
  | Ok v => ∃ jv, p = Ok jv ∧ reify d st v = Some jv
  | Raise e => p = Raise e
  end.

(** A computation that leaves every object of the initial store as it
    was: the final store is the initial one followed by new objects. *)
Definition grows {A} (m : stM A) : Prop :=
  ∀ st, ∃ fresh, (m st).2 = st ++ fresh.

(** ** Vocabulary of the specification *)

(** The clear-state table: codes 1 to 6. *)
Definition lamp_label (c : Z) : option string :=
  match c with
  | 1 => Some "FAILED"
  | 2 => Some "CLEAR"
  | 3 => Some "EXCESSIVE CLEAR"
  | 4 => Some "ULTIMATE CHAIN"
  | 5 => Some "PERFECT ULTIMATE CHAIN"
  | 6 => Some "MAXXIVE CLEAR"
  | _ => None
  end%Z.

(** The difficulty table: codes 0 to 4. *)
Definition difficulty_label (d : Z) : option string :=
  match d with
  | 0 => Some "NOV"
  | 1 => Some "ADV"
  | 2 => Some "EXH"
  | 3 => Some "ANY_INF"
  | 4 => Some "MXM"
  | _ => None
  end%Z.

(** The value [x] is the code [c]: it is a number equal to [c]. *)
Definition has_code (x : json) (c : Z) : bool :=
  match x with
  | JAtom a => atom_eq_int a c
  | _ => false
  end.

Definition is_dict (x : json) : bool :=
  match x with
  | JDict _ => true
  | _ => false
  end.

(** The record [x] is a mapping whose field [k] is the string [s]. *)
Definition field_is (x : json) (k s : string) : bool :=
  match x with
  | JDict entries =>
      match dict_lookup k entries with
      | Some (JStr t) => bool_decide (t = s)
      | _ => false
      end
  | _ => false
  end.

(** The Converted Score Record of the data model. *)
Definition score_record (song_id : string) (score : Z) (lamp difficulty : string)
    (time_achieved : Z) (exscore : option Z) : json :=
  JDict ([("matchType", JStr "sdvxInGameID");
          ("identifier", JStr song_id);
          ("score", JInt score);
          ("lamp", JStr lamp);
          ("difficulty", JStr difficulty);
          ("timeAchieved", JInt time_achieved)]
         ++ match exscore with
            | Some n => if (0 <? n)%Z then [("optional", JDict [("exScore", JInt n)])] else []
            | None => []
            end).

Section vocabulary.
Context `{PyBuiltins}.

(** The record [convert_play] yields for [play], if any. *)
Definition converted (play : json) : option json :=
  match convert_play play with
  | Ok r => r
  | Raise _ => None
  end.

(** The lamp and the difficulty of the record [convert_play] yields. *)
Definition converted_labels (play : json) : option (result json * result json) :=
  (λ info, (getitem info "lamp", getitem info "difficulty")) <$> converted play.

(** The fail-preservation policy applied to a converted record. *)
Definition retained (preserve_fails : bool) (info : json) : bool :=
  preserve_fails || negb (field_is info "lamp" "FAILED").
End vocabulary.

(** The line of the end-to-end scenario, the record it parses to and the
    score record it converts to. *)
Definition quoted (s : string) : string := String DQ s +:+ String DQ EmptyString.

Definition member_text (k v : string) : string := quoted k +:+ ":" +:+ v.

Definition scenario_line : string :=
  "{" +:+ String.concat ","
    [member_text "collection" (quoted "music");
     member_text "__refid" (quoted "U1");
     member_text "__s" (quoted "plugins_profile");
     member_text "score" "9000000";
     member_text "exscore" "0";
     member_text "mid" (quoted "42");
     member_text "clear" "2";
     member_text "type" "0";
     member_text "createdAt" ("{" +:+ member_text "$$date" "1700000000000" +:+ "}")]
  +:+ "}".

Definition scenario_record_of (exscore clear type : json) : json :=
  JDict [("collection", JStr "music");
         ("__refid", JStr "U1");
         ("__s", JStr "plugins_profile");
         ("score", JInt 9000000);
         ("exscore", exscore);
         ("mid", JStr "42");
         ("clear", clear);
         ("type", type);
         ("createdAt", JDict [("$$date", JInt 1700000000000)])].

Definition scenario_record_with (exscore : json) : json :=
  scenario_record_of exscore (JInt 2) (JInt 0).

Definition scenario_record : json := scenario_record_with (JInt 0).

Definition scenario_output : json :=
  JDict [("matchType", JStr "sdvxInGameID");
         ("identifier", JStr "42");
         ("score", JInt 9000000);
         ("lamp", JStr "CLEAR");
         ("difficulty", JStr "NOV");
         ("timeAchieved", JInt 1700000000000)].

(** The floats 0.5 and 2.0, and the scenario's record with 0.5 as secondary
    score. *)
Definition one_half : float := S754_finite false 4503599627370496 (-53).
Definition two : float := S754_finite false 4503599627370496 (-51).

Definition half_record : json := scenario_record_with (JFloat one_half).

(** File systems and configurations of the examples. *)
Definition database_with (text : string) : filesystem := {|
  fs_files := {["sdvx@asphyxia.db" :=
                  {| f_text := text; f_fails := false; f_error := OSError |}]};
  fs_locked := ∅;
  fs_cut := ∅;
|}.

Definition scenario_config : config := {|
  DATABASE_PATH := "sdvx@asphyxia.db";
  ASPHYXIA_PROFILE_ID := "U1";
  PRESERVE_FAILS := true;
  OUTPUT_FILE := "output.json";
|}.

(** The file system of the examples with the output path locked. *)
Definition locked_database_with (text : string) : filesystem := {|
  fs_files := {["sdvx@asphyxia.db" :=
                  {| f_text := text; f_fails := false; f_error := OSError |}]};
  fs_locked := {["output.json"]};
  fs_cut := ∅;
|}.

(** The scenario's database when its bytes stop decoding after the
    scenario's line: the characters read after that line are not a line
    yet. *)
Definition undecodable_database : filesystem := {|
  fs_files := {["sdvx@asphyxia.db" :=
                  {| f_text := scenario_line +:+ String LF "{";
                     f_fails := true;
                     f_error := UnicodeDecodeError |}]};
  fs_locked := ∅;
  fs_cut := ∅;
|}.

(** The file system of the examples when the writing of the output stops
    after [n] characters. *)
Definition cut_database_with (text : string) (n : nat) : filesystem := {|
  fs_files := {["sdvx@asphyxia.db" :=
                  {| f_text := text; f_fails := false; f_error := OSError |}]};
  fs_locked := ∅;
  fs_cut := {["output.json" := n]};
|}.

(** The entries of the scenario's record that the conversion reads, less
    the secondary score, in another order and with a field of their own. *)
Definition scenario_entries_without_exscore : list (string * json) :=
  [("note", JStr "imported");
   ("type", JInt 0);
   ("clear", JInt 2);
   ("createdAt", JDict [("$$date", JInt 1700000000000)]);
   ("mid", JStr "42");
   ("score", JInt 9000000)].

Definition scenario_core_record : json :=
  JDict (dict_set "exscore" (JInt 0) scenario_entries_without_exscore).


(** * Properties *)

(** ** The error monad *)

Lemma bind_Ok {A B} (m : result A) (f : A → result B) (b : B) :
  m ≫= f = Ok b ↔ ∃ a, m = Ok a ∧ f a = Ok b.
Proof.
  destruct m as [a|e]; simpl; split.
  - eauto.
  - by intros (? & [= ->] & ?).
  - done.
  - by intros (? & [=] & _).
Qed.

Lemma bind_Ok_l {A B} (a : A) (f : A → result B) : Ok a ≫= f = f a.
Proof. done. Qed.

Lemma fmap_Ok {A B} (m : result A) (f : A → B) (b : B) :
  f <$> m = Ok b ↔ ∃ a, m = Ok a ∧ b = f a.
Proof.
  destruct m as [a|e]; simpl; split.
  - intros [= <-]. eauto.
  - by intros (? & [= ->] & ->).
  - done.
  - by intros (? & [=] & _).
Qed.

Lemma filter_all {A} (P : A → Prop) `{∀ x, Decision (P x)} (xs : list A) :
  Forall P xs → filter P xs = xs.
Proof.
  induction 1 as [|x xs Hx _ IH]; [done|].
  by rewrite filter_cons_True, IH.
Qed.

Lemma filter_result_total {A} (p : A → result bool) (q : A → bool) (xs : list A) :
  Forall (λ x, p x = Ok (q x)) xs →
  filter_result p xs = Ok (filter (λ x, q x) xs).
Proof.
  induction 1 as [|x xs Hx _ IH]; [done|].
  simpl. rewrite Hx, IH. simpl. rewrite filter_cons.
  destruct (q x); by rewrite ?decide_True, ?decide_False by naive_solver.
Qed.

Lemma filter_result_raise {A} (p : A → result bool) (q : A → bool) (xs : list A) e :
  Forall (λ x, p x = Ok (q x) ∨ p x = Raise e) xs →
  Exists (λ x, p x = Raise e) xs →
  filter_result p xs = Raise e.
Proof.
  induction 1 as [|x xs Hx Hxs IH]; inversion_clear 1 as [?? Hr|?? Hr].
  - simpl. by rewrite Hr.
  - simpl. destruct Hx as [-> | ->]; [|done]. simpl. by rewrite IH.
Qed.

(** ** Numbers *)

Lemma float_eq_int_inj (f : float) (k k' : Z) :
  float_eq_int f k = true → float_eq_int f k' = true → k = k'.
Proof.
  destruct f as [s|s| |s m e]; simpl; try done.
  - intros ?%Z.eqb_eq ?%Z.eqb_eq. congruence.
  - destruct (0 <=? e)%Z eqn:He.
    + intros ?%Z.eqb_eq ?%Z.eqb_eq. congruence.
    + intros H1%Z.eqb_eq H2%Z.eqb_eq. apply Z.leb_gt in He.
      rewrite H1 in H2. apply Z.mul_cancel_r in H2; [done|].
      apply Z.pow_nonzero; lia.
Qed.

Lemma atom_eq_int_inj (a : atom) (k k' : Z) :
  atom_eq_int a k = true → atom_eq_int a k' = true → k = k'.
Proof.
  destruct a as [|b|n|f|s]; simpl; try done.
  - intros ?%Z.eqb_eq ?%Z.eqb_eq. congruence.
  - intros ?%Z.eqb_eq ?%Z.eqb_eq. congruence.
  - apply float_eq_int_inj.
Qed.

Lemma float_not_positive_trunc (f : float) (n : Z) :
  float_gt_zero f = false → float_trunc f = Ok n → (n ≤ 0)%Z.
Proof.
  destruct f as [s|s| |s m e]; simpl; try done.
  - by intros _ [= <-].
  - destruct s; [|done]. intros _ [= <-]. simpl.
    pose proof (Z.shiftl_nonneg (Z.pos m) e). lia.
Qed.

(** ** The enumeration tables *)

Lemma table_contains_true (x : json) (tbl : int_table) :
  table_contains x tbl = Ok true ↔ ∃ label, table_getitem x tbl = Ok label.
Proof.
  destruct x as [a| |]; simpl; [|split; [done | by intros [? [=]]]..].
  destruct (table_lookup a tbl) as [label|]; simpl.
  - split; eauto.
  - split; [done | by intros [? [=]]].
Qed.

Ltac table_cases a :=
  repeat match goal with
    | |- context [if atom_eq_int a ?k then _ else _] =>
        destruct (atom_eq_int a k) eqn:?; [intros [= <-]; by exists k|]
    end.

Ltac table_pick a c Hc :=
  let Hne := fresh "Hne" in
  assert (∀ k, k ≠ c → atom_eq_int a k = false) as Hne by
    (intros k Hk; destruct (atom_eq_int a k) eqn:Hak; [|done];
     destruct Hk; eapply atom_eq_int_inj; eauto);
  destruct c as [|[[|[]|]|[[]|[]|]|]|]; try done;
  simplify_eq/=; rewrite ?Hne by done; by rewrite Hc.

Lemma clear_table_label (x : json) (lamp : string) :
  table_getitem x CLEAR_TYPE_MAP = Ok lamp ↔
  ∃ c, has_code x c = true ∧ lamp_label c = Some lamp.
Proof.
  destruct x as [a| |]; simpl; [|split; [done | by intros (? & [=] & _)]..]. split.
  - unfold CLEAR_TYPE_MAP. simpl. table_cases a. done.
  - intros (c & Hc & Hl).
    table_pick a c Hc.
Qed.

Lemma difficulty_table_label (x : json) (difficulty : string) :
  table_getitem x DIFFICULTY_MAP = Ok difficulty ↔
  ∃ d, has_code x d = true ∧ difficulty_label d = Some difficulty.
Proof.
  destruct x as [a| |]; simpl; [|split; [done | by intros (? & [=] & _)]..]. split.
  - unfold DIFFICULTY_MAP. simpl. table_cases a. done.
  - intros (d & Hd & Hl).
    table_pick a d Hd.
Qed.

Lemma lamp_label_range (c : Z) (lamp : string) :
  lamp_label c = Some lamp → (1 ≤ c ≤ 6)%Z.
Proof. destruct c as [|[[|[]|]|[[]|[]|]|]|]; simpl; intros; try done; lia. Qed.

Lemma difficulty_label_range (d : Z) (difficulty : string) :
  difficulty_label d = Some difficulty → (0 ≤ d ≤ 4)%Z.
Proof. destruct d as [|[[|[]|]|[[]|[]|]|]|]; simpl; intros; try done; lia. Qed.

(** ** [convert_play] *)

Section convert_facts.
Context `{PyBuiltins}.

(** A successful conversion, step by step. *)
Lemma convert_play_Some (play out : json) :
  convert_play play = Ok (Some out) ↔
  ∃ score positive exscore mid time clear_type lamp difficulty_type difficulty,
    getitem play "score" ≫= py_int = Ok score ∧
    py_get play "exscore" (JInt 0) ≫= py_gt_zero = Ok positive ∧
    (if positive : bool
     then Some <$> (getitem play "exscore" ≫= py_int)
     else Ok None) = Ok exscore ∧
    getitem play "mid" = Ok mid ∧
    (getitem play "createdAt" ≫= λ c, getitem c "$$date") ≫= py_int = Ok time ∧
    getitem play "clear" = Ok clear_type ∧
    table_getitem clear_type CLEAR_TYPE_MAP = Ok lamp ∧
    getitem play "type" = Ok difficulty_type ∧
    table_getitem difficulty_type DIFFICULTY_MAP = Ok difficulty ∧
    out = score_record (py_str mid) score lamp difficulty time exscore.
Proof.
  unfold convert_play. split.
  - destruct (convert_play_body play) as [r|e] eqn:Hb; [|done].
    intros [= ->]. unfold convert_play_body in Hb.
    apply bind_Ok in Hb as (score & Hscore & Hb).
    apply bind_Ok in Hb as (ev & Hev & Hb).
    apply bind_Ok in Hb as (positive & Hpos & Hb).
    apply bind_Ok in Hb as (exscore & Hexs & Hb).
    apply bind_Ok in Hb as (song & (mid & Hmid & ->)%fmap_Ok & Hb).
    apply bind_Ok in Hb as (time & Htime & Hb).
    apply bind_Ok in Hb as (ct & Hct & Hb).
    apply bind_Ok in Hb as (known & Hknown & Hb).
    destruct known; simpl in Hb; [|done].
    apply bind_Ok in Hb as (lamp & Hlamp & Hb).
    apply bind_Ok in Hb as (dt & Hdt & Hb).
    apply bind_Ok in Hb as (known & Hknown' & Hb).
    destruct known; simpl in Hb; [|by apply bind_Ok in Hb as (? & _ & [=])].
    apply bind_Ok in Hb as (difficulty & Hdiff & Hb).
    exists score, positive, exscore, mid, time, ct, lamp, dt, difficulty.
    rewrite Hev. simpl. repeat split; try done.
    unfold score_record. destruct exscore as [n|]; [destruct (0 <? n)%Z|]; by simplify_eq/=.
  - intros (score & positive & exscore & mid & time & ct & lamp & dt & difficulty
            & Hscore & (ev & Hev & Hpos)%bind_Ok & Hexs & Hmid & Htime & Hct & Hlamp
            & Hdt & Hdiff & ->).
    unfold convert_play_body.
    rewrite Hscore, Hev. simpl. rewrite Hpos. simpl. rewrite Hexs. simpl.
    rewrite Hmid. simpl. rewrite Htime. simpl. rewrite Hct. simpl.
    assert (table_contains ct CLEAR_TYPE_MAP = Ok true) as ->
      by (apply table_contains_true; eauto).
    simpl. rewrite Hlamp. simpl. rewrite Hdt. simpl.
    assert (table_contains dt DIFFICULTY_MAP = Ok true) as ->
      by (apply table_contains_true; eauto).
    simpl. rewrite Hdiff. simpl.
    unfold score_record. by destruct exscore as [n|]; [destruct (0 <? n)%Z|].
Qed.

(** No exception leaves [convert_play]. *)
Lemma convert_play_returns (play : json) : ∃ r, convert_play play = Ok r.
Proof. unfold convert_play. destruct (convert_play_body play); eauto. Qed.

Lemma convert_play_not_Some (play : json) :
  (∀ out, convert_play play ≠ Ok (Some out)) → convert_play play = Ok None.
Proof.
  intros Hno. destruct (convert_play_returns play) as [[out|] Hr]; [|done].
  by destruct (Hno out).
Qed.

Lemma score_record_lamp song_id score lamp difficulty time exscore :
  getitem (score_record song_id score lamp difficulty time exscore) "lamp" = Ok (JStr lamp).
Proof. done. Qed.

Lemma score_record_truthy song_id score lamp difficulty time exscore :
  truthy (Some (score_record song_id score lamp difficulty time exscore)) = true.
Proof. done. Qed.
End convert_facts.

Section convert_claims.
Context `{PyBuiltins}.

(** C1: [convert_play] never raises; when it yields a record, the clear
    field is a code in 1..6 and the type field a code in 0..4, and the
    record's lamp and difficulty are the labels the two tables give for
    these codes; when the other fields extract, a clear code in 1..6 and a
    type code in 0..4 yield the record with exactly these labels; a clear
    field that is no code in 1..6, or a type field that is no code in
    0..4, yields no record. *)
Theorem enumeration_tables (play : json) :
  (∃ r, convert_play play = Ok r) ∧
  (∀ out, convert_play play = Ok (Some out) →
     ∃ x c lamp y d difficulty,
       getitem play "clear" = Ok x ∧ has_code x c = true ∧
       (1 ≤ c ≤ 6)%Z ∧ lamp_label c = Some lamp ∧
       getitem play "type" = Ok y ∧ has_code y d = true ∧
       (0 ≤ d ≤ 4)%Z ∧ difficulty_label d = Some difficulty ∧
       getitem out "lamp" = Ok (JStr lamp) ∧
       getitem out "difficulty" = Ok (JStr difficulty)) ∧
  (∀ score positive exscore mid time x c lamp y d difficulty,
     getitem play "score" ≫= py_int = Ok score →
     py_get play "exscore" (JInt 0) ≫= py_gt_zero = Ok positive →
     (if positive : bool
      then Some <$> (getitem play "exscore" ≫= py_int)
      else Ok None) = Ok exscore →
     getitem play "mid" = Ok mid →
     (getitem play "createdAt" ≫= λ c, getitem c "$$date") ≫= py_int = Ok time →
     getitem play "clear" = Ok x → has_code x c = true → lamp_label c = Some lamp →
     getitem play "type" = Ok y → has_code y d = true →
     difficulty_label d = Some difficulty →
     convert_play play
     = Ok (Some (score_record (py_str mid) score lamp difficulty time exscore))) ∧
  (∀ x, getitem play "clear" = Ok x →
     (∀ c, (1 ≤ c ≤ 6)%Z → has_code x c = false) →
     convert_play play = Ok None) ∧
  (∀ y, getitem play "type" = Ok y →
     (∀ d, (0 ≤ d ≤ 4)%Z → has_code y d = false) →
     convert_play play = Ok None).
Proof.
  split_and!.
  - apply convert_play_returns.
  - intros out (score & positive & exscore & mid & time & x & lamp & y & difficulty
                & _ & _ & _ & _ & _ & Hx & Hlamp & Hy & Hdiff & ->)%convert_play_Some.
    apply clear_table_label in Hlamp as (c & Hc & Hlamp).
    apply difficulty_table_label in Hdiff as (d & Hd & Hdiff).
    exists x, c, lamp, y, d, difficulty.
    pose proof (lamp_label_range _ _ Hlamp).
    pose proof (difficulty_label_range _ _ Hdiff).
    split_and!; done || lia.
  - intros score positive exscore mid time x c lamp y d difficulty
      Hscore Hpos Hexs Hmid Htime Hx Hc Hlamp Hy Hd Hdiff.
    apply convert_play_Some.
    exists score, positive, exscore, mid, time, x, lamp, y, difficulty.
    split_and!; try done.
    + apply clear_table_label; eauto.
    + apply difficulty_table_label; eauto.
  - intros x Hx Hno. apply convert_play_not_Some.
    intros out (score & positive & exscore & mid & time & x' & lamp & y & difficulty
                & _ & _ & _ & _ & _ & Hx' & Hlamp & _)%convert_play_Some.
    assert (x' = x) as -> by congruence.
    apply clear_table_label in Hlamp as (c & Hc & Hlamp).
    rewrite Hno in Hc by eauto using lamp_label_range. done.
  - intros y Hy Hno. apply convert_play_not_Some.
    intros out (score & positive & exscore & mid & time & x & lamp & y' & difficulty
                & _ & _ & _ & _ & _ & _ & _ & Hy' & Hdiff & _)%convert_play_Some.
    assert (y' = y) as -> by congruence.
    apply difficulty_table_label in Hdiff as (d & Hd & Hdiff).
    rewrite Hno in Hd by eauto using difficulty_label_range. done.
Qed.
End convert_claims.

(** The two tables, run on the scenario's record with each code in turn,
    with codes outside the tables, and with values that are no integers. *)
Example clear_codes_on_scenario :
  map (λ c, converted_labels (H := sample_builtins)
              (scenario_record_of (JInt 0) (JInt c) (JInt 0)))
      [0; 1; 2; 3; 4; 5; 6; 7; -1]%Z
  = [None;
     Some (Ok (JStr "FAILED"), Ok (JStr "NOV"));
     Some (Ok (JStr "CLEAR"), Ok (JStr "NOV"));
     Some (Ok (JStr "EXCESSIVE CLEAR"), Ok (JStr "NOV"));
     Some (Ok (JStr "ULTIMATE CHAIN"), Ok (JStr "NOV"));
     Some (Ok (JStr "PERFECT ULTIMATE CHAIN"), Ok (JStr "NOV"));
     Some (Ok (JStr "MAXXIVE CLEAR"), Ok (JStr "NOV"));
     None;
     None].
Proof. vm_compute. reflexivity. Qed.

Example difficulty_codes_on_scenario :
  map (λ d, converted_labels (H := sample_builtins)
              (scenario_record_of (JInt 0) (JInt 2) (JInt d)))
      [-1; 0; 1; 2; 3; 4; 5]%Z
  = [None;
     Some (Ok (JStr "CLEAR"), Ok (JStr "NOV"));
     Some (Ok (JStr "CLEAR"), Ok (JStr "ADV"));
     Some (Ok (JStr "CLEAR"), Ok (JStr "EXH"));
     Some (Ok (JStr "CLEAR"), Ok (JStr "ANY_INF"));
     Some (Ok (JStr "CLEAR"), Ok (JStr "MXM"));
     None].
Proof. vm_compute. reflexivity. Qed.

Example other_codes_on_scenario :
  map (λ x, converted_labels (H := sample_builtins)
              (scenario_record_of (JInt 0) x (JInt 0)))
      [JBool true; JFloat two; JFloat one_half; JStr "2"; JNone; JList []; JDict []]
  = [Some (Ok (JStr "FAILED"), Ok (JStr "NOV"));
     Some (Ok (JStr "CLEAR"), Ok (JStr "NOV"));
     None; None; None; None; None].
Proof. vm_compute. reflexivity. Qed.

(** Records that lack a required field, or hold a value of the wrong
    kind, are skipped. *)
Example bad_records_are_skipped :
  map (convert_play (H := sample_builtins))
      [JDict [("mid", JStr "42"); ("clear", JInt 2); ("type", JInt 0);
              ("createdAt", JDict [("$$date", JInt 1700000000000)])];
       JDict [("score", JInt 1); ("clear", JInt 2); ("type", JInt 0);
              ("createdAt", JDict [("$$date", JInt 1700000000000)])];
       JDict [("score", JInt 1); ("mid", JStr "42"); ("clear", JInt 2); ("type", JInt 0)];
       JDict [("score", JInt 1); ("mid", JStr "42"); ("clear", JInt 2); ("type", JInt 0);
              ("createdAt", JInt 1700000000000)];
       JDict [("score", JStr "high"); ("mid", JStr "42"); ("clear", JInt 2);
              ("type", JInt 0); ("createdAt", JDict [("$$date", JInt 1700000000000)])];
       scenario_record_with (JStr "120");
       scenario_record_with JNone;
       JList []; JInt 5; JNone]
  = replicate 10 (Ok None).
Proof. vm_compute. reflexivity. Qed.

(** ** The optional block *)

Lemma py_get_getitem (x : json) (k : string) (d v : json) :
  getitem x k = Ok v → py_get x k d = Ok v.
Proof.
  destruct x as [| |entries]; simpl; try done.
  by destruct (dict_lookup k entries); intros [= ->].
Qed.

Section optional_block.
Context `{PyBuiltins}.

Lemma atom_not_positive_int (a : atom) (n : Z) :
  atom_gt_zero a = Ok false → atom_int a = Ok n → (n ≤ 0)%Z.
Proof.
  destruct a as [|b|m|f|s]; simpl; try done.
  - by intros [= ->] [= <-].
  - intros [= Hm] [= <-]. by apply Z.ltb_ge.
  - intros [= Hf]. by apply float_not_positive_trunc.
Qed.

Lemma not_positive_int (x : json) (n : Z) :
  py_gt_zero x = Ok false → py_int x = Ok n → (n ≤ 0)%Z.
Proof. destruct x; [apply atom_not_positive_int | done..]. Qed.

Lemma score_record_optional song_id score lamp difficulty time exscore :
  getitem (score_record song_id score lamp difficulty time exscore) "optional"
  = match exscore with
    | Some n => if (0 <? n)%Z then Ok (JDict [("exScore", JInt n)]) else Raise KeyError
    | None => Raise KeyError
    end.
Proof. unfold score_record. destruct exscore as [n|]; [destruct (0 <? n)%Z|]; done. Qed.

(** C2, in the form the code satisfies: a converted record has the optional block exactly
    when the source record has an [exscore] value whose integer coercion
    is strictly positive; the block is then [{"exScore": n}] for that
    integer [n]. *)
Theorem optional_block_law (play out blk : json) :
  convert_play play = Ok (Some out) →
  (getitem out "optional" = Ok blk ↔
   ∃ v n, getitem play "exscore" = Ok v ∧ py_int v = Ok n ∧ (0 < n)%Z ∧
          blk = JDict [("exScore", JInt n)]).
Proof.
  intros (score & positive & exscore & mid & time & x & lamp & y & difficulty
          & _ & (ev & Hev & Hpos)%bind_Ok & Hexs & _ & _ & _ & _ & _ & _ & ->)
         %convert_play_Some.
  rewrite score_record_optional. destruct positive.
  - apply fmap_Ok in Hexs as (n & (v & Hv & Hn)%bind_Ok & ->).
    destruct (0 <? n)%Z eqn:Hpos'.
    + apply Z.ltb_lt in Hpos'. split.
      * intros [= <-]. eauto 10.
      * intros (v' & n' & Hv' & Hn' & _ & ->).
        assert (v' = v) as -> by congruence. do 3 f_equal. congruence.
    + apply Z.ltb_ge in Hpos'. split; [done|].
      intros (v' & n' & Hv' & Hn' & Hlt & _).
      assert (v' = v) as -> by congruence.
      assert (n' = n) as -> by congruence. lia.
  - simplify_eq/=. split; [done|].
    intros (v & n & Hv & Hn & Hlt & _).
    rewrite (py_get_getitem _ _ _ _ Hv) in Hev. simplify_eq/=.
    pose proof (not_positive_int _ _ Hpos Hn). lia.
Qed.
End optional_block.

(** Against C2 as the specification words it: the secondary score 0.5 is
    defined and strictly greater than 0, the record converts, and the
    converted record has no optional block (the integer coercion of 0.5
    is 0). *)
Lemma optional_block_half :
  getitem half_record "exscore" = Ok (JFloat one_half) ∧
  py_gt_zero (JFloat one_half) = Ok true ∧
  convert_play (H := sample_builtins) half_record = Ok (Some scenario_output) ∧
  getitem scenario_output "optional" = Raise KeyError.
Proof. split_and!; done. Qed.

(** The law on the scenario's record with secondary score 120. *)
Lemma optional_block_law_witness :
  getitem (score_record "42" 9000000 "CLEAR" "NOV" 1700000000000 (Some 120%Z)) "optional"
  = Ok (JDict [("exScore", JInt 120)]) ↔
  ∃ v n, getitem (scenario_record_with (JInt 120)) "exscore" = Ok v ∧
         py_int (H := sample_builtins) v = Ok n ∧ (0 < n)%Z ∧
         JDict [("exScore", JInt 120)] = JDict [("exScore", JInt n)].
Proof.
  apply (optional_block_law (H := sample_builtins) (scenario_record_with (JInt 120))).
  reflexivity.
Defined.

(** ** The conversion loop *)

Section loop.
Context `{PyBuiltins}.

Lemma converted_Some (play info : json) :
  converted play = Some info ↔ convert_play play = Ok (Some info).
Proof.
  unfold converted. destruct (convert_play_returns play) as [r ->].
  split; congruence.
Qed.

Lemma keeps_converted (preserve_fails : bool) (play info : json) :
  convert_play play = Ok (Some info) →
  keeps preserve_fails (Some info) = Ok (retained preserve_fails info).
Proof.
  intros (score & positive & exscore & mid & time & x & lamp & y & difficulty
          & _ & _ & _ & _ & _ & _ & _ & _ & _ & ->)%convert_play_Some.
  unfold keeps, retained. rewrite score_record_truthy.
  destruct preserve_fails; [done|]. by rewrite score_record_lamp.
Qed.

Lemma convert_scores_cons (preserve_fails : bool) play rest score_results :
  convert_scores preserve_fails (play :: rest) score_results
  = score_info ← convert_play play;
    keep ← keeps preserve_fails score_info;
    convert_scores preserve_fails rest
      (match score_info with
       | Some info => if keep : bool then score_results ++ [info] else score_results
       | None => score_results
       end).
Proof. done. Qed.

(** The loop appends to [score_results], in order, the converted records
    the policy retains. *)
Lemma convert_scores_spec (preserve_fails : bool) (plays score_results : list json) :
  convert_scores preserve_fails plays score_results
  = Ok (score_results
        ++ filter (λ info, retained preserve_fails info) (omap converted plays)).
Proof.
  revert score_results. induction plays as [|play plays IH]; intros score_results.
  { simpl. by rewrite app_nil_r. }
  rewrite convert_scores_cons. simpl omap. unfold converted at 1.
  destruct (convert_play_returns play) as [r Hr]. rewrite Hr, bind_Ok_l.
  destruct r as [info|]; [|apply IH].
  rewrite (keeps_converted _ _ _ Hr), bind_Ok_l, IH, filter_cons.
  destruct (retained preserve_fails info).
  - rewrite decide_True by done. by rewrite <- app_assoc.
  - by rewrite decide_False by naive_solver.
Qed.

(** C4: an exception raised by any statement of the conversion makes
    [convert_play] return [None]; no exception leaves [convert_play]; in
    particular a record without [score], [mid] or [createdAt] (or whose
    timestamp wrapper lacks the date), or whose score or timestamp does not
    coerce to an integer, is skipped; and the loop over a batch that
    contains such a record still returns its list. *)
Theorem conversion_errors_are_skips (play : json) :
  (∀ e, convert_play_body play = Raise e → convert_play play = Ok None) ∧
  (∀ e, convert_play play ≠ Raise e) ∧
  (∀ k e, k ∈ ["score"; "mid"; "createdAt"; "clear"; "type"] →
     getitem play k = Raise e → convert_play play = Ok None) ∧
  (∀ e, getitem play "score" ≫= py_int = Raise e → convert_play play = Ok None) ∧
  (∀ e, py_get play "exscore" (JInt 0) ≫= py_gt_zero = Raise e →
     convert_play play = Ok None) ∧
  (∀ e, (getitem play "createdAt" ≫= λ c, getitem c "$$date") ≫= py_int = Raise e →
     convert_play play = Ok None) ∧
  (∀ preserve_fails before after score_results,
     ∃ outs, convert_scores preserve_fails (before ++ play :: after) score_results
             = Ok outs).
Proof.
  split_and!.
  - intros e He. unfold convert_play. by rewrite He.
  - intros e. destruct (convert_play_returns play) as [r ->]. done.
  - intros k e Hk He. apply convert_play_not_Some.
    intros out (score & positive & exscore & mid & time & x & lamp & y & difficulty
                & (? & ? & _)%bind_Ok & _ & _ & ? & (? & (? & ? & _)%bind_Ok & _)%bind_Ok
                & ? & _ & ? & _)%convert_play_Some.
    repeat (apply elem_of_cons in Hk as [-> | Hk]; [congruence|]).
    by apply elem_of_nil in Hk.
  - intros e He. apply convert_play_not_Some.
    intros out (score & ? & ? & ? & ? & ? & ? & ? & ? & ? & _)%convert_play_Some.
    congruence.
  - intros e He. apply convert_play_not_Some.
    intros out (? & ? & ? & ? & ? & ? & ? & ? & ? & _ & ? & _)%convert_play_Some.
    congruence.
  - intros e He. apply convert_play_not_Some.
    intros out (? & ? & ? & ? & ? & ? & ? & ? & ? & _ & _ & _ & _ & ? & _)
               %convert_play_Some.
    congruence.
  - intros. rewrite convert_scores_spec. eauto.
Qed.

End loop.

(** ** [load_plays_database] and [filter_user_scores] *)

Lemma py_get_non_dict (x : json) (k : string) (d : json) :
  is_dict x = false → py_get x k d = Raise AttributeError.
Proof. by destruct x. Qed.

Lemma py_get_eq_str (x : json) (k s : string) :
  is_dict x = true →
  (λ v, py_eq_str v s) <$> py_get x k JNone = Ok (field_is x k s).
Proof.
  destruct x as [| |entries]; simpl; try done. intros _.
  by destruct (dict_lookup k entries) as [[[]| |]|].
Qed.

(** The lines read before a failure are the first lines of the text. *)
Lemma lines_before_failure_from_prefix (n : nat) (s cur : string) :
  String.length s ≤ n →
  lines_before_failure_from cur s `prefix_of` text_lines_from cur s.
Proof.
  revert s cur. induction n as [|n IH]; intros s cur Hn.
  - destruct s; [|simpl in Hn; lia]. apply prefix_nil.
  - destruct s as [|c rest]; [apply prefix_nil|]. simpl in Hn. simpl.
    destruct (bool_decide (c = LF)).
    { apply prefix_cons, IH. lia. }
    destruct (bool_decide (c = CR)); [|apply IH; lia].
    destruct rest as [|c' rest']; [apply prefix_nil|]. simpl in Hn.
    destruct (bool_decide (c' = LF)); apply prefix_cons, IH; simpl; lia.
Qed.

Lemma file_lines_prefix (f : file) : file_lines f `prefix_of` text_lines (f_text f).
Proof.
  unfold file_lines. destruct (f_fails f); [|done].
  by apply (lines_before_failure_from_prefix (String.length (f_text f))).
Qed.

Section loader.
Context `{PyBuiltins}.

Lemma file_lines_reads (f : file) :
  f_fails f = false → file_lines f = text_lines (f_text f).
Proof. unfold file_lines. by intros ->. Qed.

(** The comprehension over the lines: it yields the parsed values when
    [json.loads] returns on every line, and otherwise raises what
    [json.loads] raises on the first line it rejects. *)
Lemma mapM_parse_line (lines : list string) :
  match mapM parse_line lines with
  | Ok data_points => mapM json_loads lines = Some data_points
  | Raise e =>
      mapM json_loads lines = None ∧
      ∃ before line after,
        lines = before ++ line :: after ∧
        Forall (λ line, is_Some (json_loads line)) before ∧
        json_loads line = None ∧ e = json_loads_error line
  end.
Proof.
  induction lines as [|line lines IH]; [done|].
  change (mapM parse_line (line :: lines))
    with (y ← parse_line line; k ← mapM parse_line lines; mret (y :: k)).
  change (mapM json_loads (line :: lines))
    with (y ← json_loads line; k ← mapM json_loads lines; mret (y :: k)).
  destruct (json_loads line) as [x|] eqn:Hline.
  - assert (parse_line line = Ok x) as ->.
    { unfold parse_line. by rewrite Hline. }
    rewrite bind_Ok_l. destruct (mapM parse_line lines) as [data_points|e]; simpl.
    + by rewrite IH.
    + destruct IH as (Hnone & before & bad & after & -> & Hbefore & Hbad & ->).
      split; [by rewrite Hnone|].
      exists (line :: before), bad, after. split_and!; try done.
      constructor; [by rewrite Hline|done].
  - assert (parse_line line = Raise (json_loads_error line)) as ->.
    { unfold parse_line. by rewrite Hline. }
    simpl. split; [done|]. exists [], line, lines. by split_and!.
Qed.

Lemma mapM_parse_line_Ok (lines : list string) (data_points : list json) :
  mapM parse_line lines = Ok data_points ↔ mapM json_loads lines = Some data_points.
Proof.
  pose proof (mapM_parse_line lines) as Hlines.
  destruct (mapM parse_line lines) as [data_points'|e].
  - rewrite Hlines. split; congruence.
  - destruct Hlines as [-> _]. split; congruence.
Qed.

Lemma mapM_parse_line_Raise (lines : list string) (e : exc) :
  mapM parse_line lines = Raise e →
  ∃ before line after,
    lines = before ++ line :: after ∧
    Forall (λ line, is_Some (json_loads line)) before ∧
    json_loads line = None ∧ e = json_loads_error line.
Proof.
  pose proof (mapM_parse_line lines) as Hlines.
  destruct (mapM parse_line lines) as [data_points|e']; [done|].
  intros [= ->]. by destruct Hlines as [_ ?].
Qed.

(** The first line [json.loads] rejects decides the exception. *)
Lemma mapM_parse_line_first (before after : list string) (line : string) :
  Forall (λ line, is_Some (json_loads line)) before →
  json_loads line = None →
  mapM parse_line (before ++ line :: after) = Raise (json_loads_error line).
Proof.
  intros Hbefore Hline. induction Hbefore as [|first before [x Hx] _ IH].
  - change (mapM parse_line ([] ++ line :: after))
      with (y ← parse_line line; k ← mapM parse_line after; mret (y :: k)).
    assert (parse_line line = Raise (json_loads_error line)) as ->; [|done].
    unfold parse_line. by rewrite Hline.
  - change (mapM parse_line ((first :: before) ++ line :: after))
      with (y ← parse_line first; k ← mapM parse_line (before ++ line :: after);
            mret (y :: k)).
    assert (parse_line first = Ok x) as ->.
    { unfold parse_line. by rewrite Hx. }
    by rewrite bind_Ok_l, IH.
Qed.

Lemma is_music_dict (play : json) :
  is_dict play = true → is_music play = Ok (field_is play "collection" "music").
Proof.
  intros Hd. unfold is_music.
  pose proof (py_get_eq_str play "collection" "music" Hd) as Heq.
  by destruct (py_get play "collection" JNone).
Qed.

Lemma is_music_non_dict (play : json) :
  is_dict play = false → is_music play = Raise AttributeError.
Proof. intros Hd. unfold is_music. by rewrite py_get_non_dict. Qed.

Lemma is_user_score_dict (profile_id : string) (point : json) :
  is_dict point = true →
  is_user_score profile_id point
  = Ok (field_is point "__refid" profile_id && field_is point "__s" "plugins_profile").
Proof.
  intros Hd. unfold is_user_score.
  pose proof (py_get_eq_str point "__refid" profile_id Hd) as Hr.
  pose proof (py_get_eq_str point "__s" "plugins_profile" Hd) as Hs.
  destruct (py_get point "__refid" JNone) as [r|]; [|done].
  simpl in *. injection Hr as ->.
  destruct (field_is point "__refid" profile_id); [|done].
  destruct (py_get point "__s" JNone) as [s|]; [|done].
  simpl in *. by injection Hs as ->.
Qed.

(** The music records of a list of objects. *)
Lemma filter_music_dicts (data_points : list json) :
  Forall (λ x, is_dict x) data_points →
  filter_result is_music data_points
  = Ok (filter (λ x, field_is x "collection" "music") data_points).
Proof.
  intros Hd. apply filter_result_total.
  eapply Forall_impl; [done|]. intros x Hx. by apply is_music_dict, Is_true_true.
Qed.

(** A value that is no object makes the selection raise. *)
Lemma filter_music_non_dict (data_points : list json) :
  ¬ Forall (λ x, is_dict x) data_points →
  filter_result is_music data_points = Raise AttributeError.
Proof.
  intros Hd.
  apply (filter_result_raise _ (λ x, field_is x "collection" "music")).
  - apply Forall_forall. intros x _. destruct (is_dict x) eqn:Hx.
    + left. by apply is_music_dict.
    + right. by apply is_music_non_dict.
  - apply not_Forall_Exists in Hd; [|apply _].
    eapply Exists_impl; [done|]. intros x Hx. apply is_music_non_dict.
    apply not_true_is_false. intros Hdict. apply Hx. by rewrite Hdict.
Qed.

(** What [load_plays_database] does, case by case. *)
Lemma load_plays_database_cases (fs : filesystem) (db_path : string) :
  load_plays_database fs db_path
  = match fs_files fs !! db_path with
    | None => Raise OSError
    | Some db_file =>
        match mapM parse_line (file_lines db_file) with
        | Raise e => Raise e
        | Ok data_points =>
            if f_fails db_file then Raise (f_error db_file)
            else if forallb is_dict data_points
            then Ok (filter (λ x, field_is x "collection" "music") data_points)
            else Raise AttributeError
        end
    end.
Proof.
  unfold load_plays_database, open_read.
  destruct (fs_files fs !! db_path) as [db_file|]; [|done]. simpl.
  destruct (mapM parse_line (file_lines db_file)) as [data_points|e];
    [|by destruct e].
  simpl. unfold end_of_file.
  destruct (f_fails db_file); [by destruct (f_error db_file)|]. simpl.
  destruct (forallb is_dict data_points) eqn:Hd.
  - rewrite filter_music_dicts; [done|]. by apply forallb_True, Is_true_true.
  - rewrite filter_music_non_dict; [done|].
    intros Hall%forallb_True. by rewrite Hd in Hall.
Qed.
End loader.

Section loader_claims.
Context `{PyBuiltins}.

Lemma loaded_are_dicts (fs : filesystem) (db_path : string) (plays : list json) :
  load_plays_database fs db_path = Ok plays → Forall (λ x, is_dict x) plays.
Proof.
  rewrite load_plays_database_cases.
  destruct (fs_files fs !! db_path) as [db_file|]; [|done].
  destruct (mapM parse_line _) as [data_points|]; [|done].
  destruct (f_fails db_file); [done|].
  destruct (forallb is_dict data_points) eqn:Hd; [|done].
  intros [= <-]. apply Forall_forall. intros x [_ Hx]%list_elem_of_filter.
  apply Is_true_true, forallb_True in Hd.
  by eapply Forall_forall in Hd.
Qed.

(** C5, in the form the code satisfies: when the file opens and reads to
    its end, every line parses and every parsed value is an object, the
    loader returns the parsed values whose [collection] is ["music"], in
    file order.  The load aborts, with no partial result, at the first
    line [json.loads] rejects, with the exception [json.loads] raises
    there: the parse error when the lines it rejects are the lines that
    are not valid JSON.  A file that cannot be opened makes it raise the
    IO error; a file whose reading fails after lines that all parse makes
    it raise the error of the read.  Its only other failure is the
    [AttributeError] raised when the file reads to its end, every line
    parses and one parses to a value that is not an object; and it returns
    a list only in the first case. *)
Theorem loader_contract (fs : filesystem) (db_path : string) :
  (∀ db_file data_points,
     fs_files fs !! db_path = Some db_file → f_fails db_file = false →
     mapM json_loads (text_lines (f_text db_file)) = Some data_points →
     Forall (λ x, is_dict x) data_points →
     load_plays_database fs db_path
     = Ok (filter (λ x, field_is x "collection" "music") data_points)) ∧
  (∀ db_file before line after,
     fs_files fs !! db_path = Some db_file →
     file_lines db_file = before ++ line :: after →
     Forall (λ line, is_Some (json_loads line)) before →
     json_loads line = None →
     load_plays_database fs db_path = Raise (json_loads_error line)) ∧
  (∀ db_file line,
     fs_files fs !! db_path = Some db_file →
     line ∈ file_lines db_file → json_loads line = None →
     (∃ bad, bad ∈ file_lines db_file ∧ json_loads bad = None ∧
             load_plays_database fs db_path = Raise (json_loads_error bad)) ∧
     ((∀ bad, bad ∈ file_lines db_file → json_loads bad = None →
              json_loads_error bad = JSONDecodeError) →
      load_plays_database fs db_path = Raise JSONDecodeError)) ∧
  (fs_files fs !! db_path = None → load_plays_database fs db_path = Raise OSError) ∧
  (∀ db_file,
     fs_files fs !! db_path = Some db_file → f_fails db_file = true →
     Forall (λ line, is_Some (json_loads line)) (file_lines db_file) →
     load_plays_database fs db_path = Raise (f_error db_file)) ∧
  (∀ db_file data_points,
     fs_files fs !! db_path = Some db_file → f_fails db_file = false →
     mapM json_loads (text_lines (f_text db_file)) = Some data_points →
     ¬ Forall (λ x, is_dict x) data_points →
     load_plays_database fs db_path = Raise AttributeError) ∧
  (∀ e, load_plays_database fs db_path = Raise e →
     (fs_files fs !! db_path = None ∧ e = OSError) ∨
     ∃ db_file,
       fs_files fs !! db_path = Some db_file ∧
       ((∃ line, line ∈ file_lines db_file ∧ json_loads line = None ∧
                 e = json_loads_error line) ∨
        (f_fails db_file = true ∧ e = f_error db_file) ∨
        (f_fails db_file = false ∧ e = AttributeError ∧
         ∃ data_points,
           mapM json_loads (text_lines (f_text db_file)) = Some data_points ∧
           ¬ Forall (λ x, is_dict x) data_points))) ∧
  (∀ plays, load_plays_database fs db_path = Ok plays →
     ∃ db_file data_points,
       fs_files fs !! db_path = Some db_file ∧ f_fails db_file = false ∧
       mapM json_loads (text_lines (f_text db_file)) = Some data_points ∧
       Forall (λ x, is_dict x) data_points ∧
       plays = filter (λ x, field_is x "collection" "music") data_points).
Proof.
  rewrite load_plays_database_cases. split_and!.
  - intros db_file data_points -> Hfail Hparse Hd.
    rewrite (file_lines_reads _ Hfail), Hfail.
    apply mapM_parse_line_Ok in Hparse. rewrite Hparse.
    apply forallb_True, Is_true_true in Hd. by rewrite Hd.
  - intros db_file before line after -> -> Hbefore Hbad.
    by rewrite mapM_parse_line_first.
  - intros db_file line -> Hline Hbad.
    destruct (mapM parse_line (file_lines db_file)) as [data_points|e] eqn:Hparse.
    { apply mapM_parse_line_Ok in Hparse.
      assert (mapM json_loads (file_lines db_file) = None) as Hnone; [|congruence].
      apply mapM_None, Exists_exists. eauto. }
    apply mapM_parse_line_Raise in Hparse
      as (before & bad & after & Hlines & _ & Hrejected & ->).
    assert (bad ∈ file_lines db_file) as Hin.
    { rewrite Hlines. apply elem_of_app. right. left. }
    split; [by exists bad|]. intros Hall. by rewrite Hall.
  - by intros ->.
  - intros db_file -> Hfail Hlines.
    apply (mapM_is_Some_2 json_loads) in Hlines as [data_points Hparse].
    apply mapM_parse_line_Ok in Hparse. by rewrite Hparse, Hfail.
  - intros db_file data_points -> Hfail Hparse Hd.
    rewrite (file_lines_reads _ Hfail), Hfail.
    apply mapM_parse_line_Ok in Hparse. rewrite Hparse.
    destruct (forallb is_dict data_points) eqn:Hall; [|done].
    destruct Hd. by apply forallb_True, Is_true_true.
  - intros e. destruct (fs_files fs !! db_path) as [db_file|]; [|naive_solver].
    intros He. right. exists db_file. split; [done|].
    destruct (mapM parse_line (file_lines db_file)) as [data_points|e'] eqn:Hparse.
    + destruct (f_fails db_file) eqn:Hfail; [naive_solver|].
      rewrite (file_lines_reads _ Hfail) in Hparse.
      apply mapM_parse_line_Ok in Hparse.
      destruct (forallb is_dict data_points) eqn:Hd; [done|].
      injection He as <-. right. right. split_and!; try done.
      exists data_points. split; [done|].
      intros Hall%forallb_True. by rewrite Hd in Hall.
    + injection He as ->.
      apply mapM_parse_line_Raise in Hparse
        as (before & bad & after & Hlines & _ & Hrejected & ->).
      left. exists bad. split_and!; try done.
      rewrite Hlines. apply elem_of_app. right. left.
  - intros plays. destruct (fs_files fs !! db_path) as [db_file|]; [|done].
    destruct (mapM parse_line _) as [data_points|] eqn:Hparse; [|done].
    destruct (f_fails db_file) eqn:Hfail; [done|].
    rewrite (file_lines_reads _ Hfail) in Hparse.
    apply mapM_parse_line_Ok in Hparse.
    destruct (forallb is_dict data_points) eqn:Hd; [|done].
    intros [= <-]. exists db_file, data_points. split_and!; try done.
    by apply forallb_True, Is_true_true.
Qed.

(** C9: if the file opens and one of its lines parses to a value that is
    not an object, the loader raises and [main] stops with that exception
    before writing anything; when moreover every line parses and the file
    reads to its end, the exception is the [AttributeError] of the failed
    [get]. *)
Theorem non_object_line_aborts (fs : filesystem) (db_path : string)
    (db_file : file) (line : string) (x : json) :
  fs_files fs !! db_path = Some db_file →
  line ∈ text_lines (f_text db_file) →
  json_loads line = Some x →
  is_dict x = false →
  (∃ e, load_plays_database fs db_path = Raise e ∧
        ∀ cfg, DATABASE_PATH cfg = db_path → main cfg fs = (Raise e, fs)) ∧
  (Forall (λ line, is_Some (json_loads line)) (text_lines (f_text db_file)) →
   f_fails db_file = false →
   load_plays_database fs db_path = Raise AttributeError).
Proof.
  intros Hfile Hline Hx Hnd.
  assert (∀ data_points,
            mapM json_loads (text_lines (f_text db_file)) = Some data_points →
            forallb is_dict data_points = false) as Hbad.
  { intros data_points Hparse%mapM_Some.
    apply list_elem_of_lookup in Hline as [i Hi].
    destruct (Forall2_lookup_l _ _ _ _ _ Hparse Hi) as (x' & Hi' & Hx').
    assert (x' = x) as -> by congruence.
    apply not_true_is_false. intros Hall%Is_true_true%forallb_True.
    eapply Forall_lookup_1 in Hall; [|done]. by rewrite Hnd in Hall. }
  assert (∃ e, load_plays_database fs db_path = Raise e) as [e He].
  { rewrite load_plays_database_cases, Hfile.
    destruct (mapM parse_line _) as [data_points|] eqn:Hparse; [|eauto].
    destruct (f_fails db_file) eqn:Hfail; [eauto|].
    rewrite (file_lines_reads _ Hfail) in Hparse.
    apply mapM_parse_line_Ok in Hparse. rewrite Hbad by done. eauto. }
  split.
  - exists e. split; [done|]. intros cfg <-.
    unfold main, final_result. by rewrite He.
  - intros [data_points Hparse]%(mapM_is_Some_2 json_loads) Hfail.
    rewrite load_plays_database_cases, Hfile, (file_lines_reads _ Hfail), Hfail.
    pose proof (Hbad _ Hparse) as Hnone. apply mapM_parse_line_Ok in Hparse.
    by rewrite Hparse, Hnone.
Qed.

(** C6: on a sequence of records (mappings) the filter returns, without
    raising, the records whose [__refid] is the target identifier and
    whose [__s] is ["plugins_profile"], in input order: a subsequence of
    the input, possibly empty. *)
Theorem user_filter_contract (scores : list json) (profile_id : string) :
  Forall (λ point, is_dict point) scores →
  ∃ kept,
    filter_user_scores scores profile_id = Ok kept ∧
    kept = filter (λ point, field_is point "__refid" profile_id
                            && field_is point "__s" "plugins_profile") scores ∧
    kept `sublist_of` scores ∧
    (∀ point, point ∈ kept ↔
       point ∈ scores ∧ field_is point "__refid" profile_id = true
       ∧ field_is point "__s" "plugins_profile" = true) ∧
    filter_user_scores [] profile_id = Ok [].
Proof.
  intros Hd. eexists. split_and!; [|done| | |done].
  - apply filter_result_total. eapply Forall_impl; [done|].
    intros point Hp. by apply is_user_score_dict, Is_true_true.
  - apply sublist_filter.
  - intros point. rewrite list_elem_of_filter, andb_True, !Is_true_true. tauto.
Qed.
End loader_claims.

(** Against C5 as the specification words it: the file made of the single
    line [5] parses line by line, yet the loader returns no list and raises
    neither a parse error nor an IO error. *)
Lemma loader_non_object_line :
  mapM sample_loads (text_lines "5") = Some [JInt 5] ∧
  load_plays_database (H := sample_builtins) (database_with "5") "sdvx@asphyxia.db"
  = Raise AttributeError.
Proof. split; vm_compute; reflexivity. Qed.

(** The file made of the single line [5]. *)
Lemma non_object_line_aborts_witness :
  (∃ e, load_plays_database (H := sample_builtins) (database_with "5") "sdvx@asphyxia.db"
        = Raise e ∧
        ∀ cfg, DATABASE_PATH cfg = "sdvx@asphyxia.db" →
               main (H := sample_builtins) cfg (database_with "5")
               = (Raise e, database_with "5")) ∧
  (Forall (λ line, is_Some (sample_loads line)) (text_lines "5") →
   false = false →
   load_plays_database (H := sample_builtins) (database_with "5") "sdvx@asphyxia.db"
   = Raise AttributeError).
Proof.
  apply (non_object_line_aborts (H := sample_builtins) (database_with "5")
           "sdvx@asphyxia.db"
           {| f_text := "5"; f_fails := false; f_error := OSError |} "5" (JInt 5)).
  - vm_compute. reflexivity.
  - vm_compute. left.
  - vm_compute. reflexivity.
  - reflexivity.
Defined.

(** The scenario's record and an empty record, filtered for U1. *)
Lemma user_filter_contract_witness :
  ∃ kept,
    filter_user_scores [scenario_record; JDict []] "U1" = Ok kept ∧
    kept = filter (λ point, field_is point "__refid" "U1"
                            && field_is point "__s" "plugins_profile")
             [scenario_record; JDict []] ∧
    kept `sublist_of` [scenario_record; JDict []] ∧
    (∀ point, point ∈ kept ↔
       point ∈ [scenario_record; JDict []] ∧ field_is point "__refid" "U1" = true
       ∧ field_is point "__s" "plugins_profile" = true) ∧
    filter_user_scores [] "U1" = Ok [].
Proof.
  apply (user_filter_contract [scenario_record; JDict []] "U1").
  repeat constructor.
Defined.

(** ** The whole run *)

Section run.
Context `{PyBuiltins}.

(** The document [main] builds from the loaded records. *)
Lemma final_result_spec (cfg : config) (fs : filesystem) :
  final_result cfg fs
  = data_points ← load_plays_database fs (DATABASE_PATH cfg);
    Ok (JDict [("meta", META);
               ("scores",
                JList (filter (λ info, retained (PRESERVE_FAILS cfg) info)
                         (omap converted
                            (filter (λ point,
                                       field_is point "__refid" (ASPHYXIA_PROFILE_ID cfg)
                                       && field_is point "__s" "plugins_profile")
                               data_points))))]).
Proof.
  unfold final_result.
  destruct (load_plays_database fs (DATABASE_PATH cfg)) as [data_points|e] eqn:Hload;
    [|done].
  rewrite !bind_Ok_l. unfold filter_user_scores.
  erewrite filter_result_total; last first.
  { eapply Forall_impl; [by eapply loaded_are_dicts|].
    intros point Hp. by apply is_user_score_dict, Is_true_true. }
  by rewrite bind_Ok_l, convert_scores_spec.
Qed.

(** The document depends on the file system through the database file
    only. *)
Lemma final_result_database (cfg : config) (fs fs' : filesystem) :
  fs_files fs !! DATABASE_PATH cfg = fs_files fs' !! DATABASE_PATH cfg →
  final_result cfg fs = final_result cfg fs'.
Proof.
  intros Hdb. by rewrite !final_result_spec, !load_plays_database_cases, Hdb.
Qed.

(** [main] raises exactly when the loader does, and writes at most the
    output file. *)
Lemma main_cases (cfg : config) (fs : filesystem) :
  main cfg fs
  = match final_result cfg fs with
    | Raise e => (Raise e, fs)
    | Ok result =>
        (Ok (),
         if bool_decide (OUTPUT_FILE cfg ∈ fs_locked fs) then fs
         else {| fs_files :=
                   <[OUTPUT_FILE cfg :=
                       {| f_text := written (fs_cut fs !! OUTPUT_FILE cfg)
                                      (json_dumps result);
                          f_fails := false;
                          f_error := OSError |}]>
                     (fs_files fs);
                 fs_locked := fs_locked fs;
                 fs_cut := fs_cut fs |})
    end.
Proof.
  unfold main, save_results, write_text.
  destruct (final_result cfg fs); [|done]. case_bool_decide; [done|].
  by destruct (fs_cut fs !! OUTPUT_FILE cfg).
Qed.

(** C3: when the database file holds the single line of the scenario,
    which parses to the scenario's record, and the target owner is U1, the
    run builds the document whose scores are exactly the one record
    [{matchType: sdvxInGameID, identifier: 42, score: 9000000, lamp:
    CLEAR, difficulty: NOV, timeAchieved: 1700000000000}], which has no
    optional block. *)
Theorem end_to_end_scenario (cfg : config) (fs : filesystem) (db_file : file)
    (line : string) :
  fs_files fs !! DATABASE_PATH cfg = Some db_file →
  f_fails db_file = false →
  text_lines (f_text db_file) = [line] →
  json_loads line = Some scenario_record →
  ASPHYXIA_PROFILE_ID cfg = "U1" →
  load_plays_database fs (DATABASE_PATH cfg) = Ok [scenario_record] ∧
  filter_user_scores [scenario_record] "U1" = Ok [scenario_record] ∧
  convert_play scenario_record = Ok (Some scenario_output) ∧
  final_result cfg fs = Ok (JDict [("meta", META); ("scores", JList [scenario_output])]) ∧
  getitem scenario_output "optional" = Raise KeyError.
Proof.
  intros Hfile Hfail Hlines Hline Hid.
  assert (load_plays_database fs (DATABASE_PATH cfg) = Ok [scenario_record]) as Hload.
  { rewrite load_plays_database_cases, Hfile, (file_lines_reads _ Hfail), Hlines.
    assert (mapM parse_line [line] = Ok [scenario_record]) as ->.
    { apply mapM_parse_line_Ok. simpl. by rewrite Hline. }
    by rewrite Hfail. }
  split_and!; try done.
  rewrite final_result_spec, Hload, Hid. by destruct (PRESERVE_FAILS cfg).
Qed.

(** C8: a run followed by a second run with the same configuration, the
    database file being the same at the start of both, gives the same
    outcome and leaves the file system as the first run left it: the
    output file holds the same text, also when the writing is cut short.
    More generally the outcome depends on the configuration and the
    database file only, and so does the text written, up to where the
    file system cuts the writing. *)
Theorem pipeline_deterministic (cfg : config) (fs : filesystem) :
  let first := main cfg fs in
  let second := main cfg first.2 in
  fs_files first.2 !! DATABASE_PATH cfg = fs_files fs !! DATABASE_PATH cfg →
  second.1 = first.1 ∧
  second.2 = first.2 ∧
  fs_files second.2 !! OUTPUT_FILE cfg = fs_files first.2 !! OUTPUT_FILE cfg ∧
  (∀ fs', fs_files fs' !! DATABASE_PATH cfg = fs_files fs !! DATABASE_PATH cfg →
          OUTPUT_FILE cfg ∉ fs_locked fs → OUTPUT_FILE cfg ∉ fs_locked fs' →
          fs_cut fs' !! OUTPUT_FILE cfg = fs_cut fs !! OUTPUT_FILE cfg →
          (main cfg fs').1 = (main cfg fs).1 ∧
          fs_files (main cfg fs').2 !! OUTPUT_FILE cfg
          = match final_result cfg fs with
            | Ok result =>
                Some {| f_text := written (fs_cut fs !! OUTPUT_FILE cfg)
                                    (json_dumps result);
                        f_fails := false;
                        f_error := OSError |}
            | Raise _ => fs_files fs' !! OUTPUT_FILE cfg
            end).
Proof.
  intros first second Hdb.
  assert (second = first) as Hsame.
  { subst second. rewrite (main_cases cfg first.2).
    rewrite (final_result_database cfg first.2 fs Hdb).
    subst first. rewrite main_cases.
    destruct (final_result cfg fs) as [result|e]; [|done]. simpl.
    destruct (bool_decide (OUTPUT_FILE cfg ∈ fs_locked fs)) eqn:Hlock; simpl.
    - by rewrite Hlock.
    - by rewrite Hlock, insert_insert_eq. }
  rewrite Hsame. split_and!; try done.
  intros fs' Hdb' Hfree Hfree' Hcut.
  rewrite !main_cases, (final_result_database cfg fs' fs Hdb').
  destruct (final_result cfg fs) as [result|e]; [|done]. simpl.
  rewrite bool_decide_false by done. simpl. by rewrite lookup_insert_eq, Hcut.
Qed.
End run.

(** The scenario, run with the sample library functions. *)
Example text_lines_newlines :
  text_lines ("a" +:+ String LF ("b" +:+ String CR (String LF ("c" +:+ String CR "d"))))
  = ["a" +:+ String LF ""; "b" +:+ String LF ""; "c" +:+ String LF ""; "d"].
Proof. reflexivity. Qed.

(** Before a failing read only the terminated lines are yielded: neither
    the characters after the last terminator nor a carriage return that
    ends the text. *)
Example lines_before_failure_example :
  lines_before_failure
    ("a" +:+ String LF ("b" +:+ String CR (String LF ("c" +:+ String CR ""))))
  = ["a" +:+ String LF ""; "b" +:+ String LF ""].
Proof. reflexivity. Qed.

Example written_example :
  written (Some 3) "{meta" = "{me" ∧ written None "{meta" = "{meta".
Proof. split; reflexivity. Qed.

(** The loader on the database whose bytes stop decoding after the
    scenario's line: the decoding error, not the parse error of the
    characters that follow the line. *)
Example undecodable_database_load :
  load_plays_database (H := sample_builtins) undecodable_database "sdvx@asphyxia.db"
  = Raise UnicodeDecodeError.
Proof. vm_compute. reflexivity. Qed.

(** The run when the writing of the output stops after ten characters:
    it ends normally and leaves the ten characters. *)
Example cut_output_run :
  (main (H := sample_builtins) scenario_config (cut_database_with scenario_line 10)).1
  = Ok () ∧
  f_text <$> fs_files
    (main (H := sample_builtins) scenario_config (cut_database_with scenario_line 10)).2
    !! "output.json"
  = Some ("{" +:+ String DQ ("meta" +:+ String DQ ": {")).
Proof. vm_compute. done. Qed.

Example scenario_line_parses : sample_loads scenario_line = Some scenario_record.
Proof. vm_compute. reflexivity. Qed.

(** The scenario on the file that holds its line, read by the sample
    JSON reader. *)
Lemma end_to_end_scenario_witness :
  load_plays_database (H := sample_builtins) (database_with scenario_line)
    (DATABASE_PATH scenario_config) = Ok [scenario_record] ∧
  filter_user_scores [scenario_record] "U1" = Ok [scenario_record] ∧
  convert_play (H := sample_builtins) scenario_record = Ok (Some scenario_output) ∧
  final_result (H := sample_builtins) scenario_config (database_with scenario_line)
  = Ok (JDict [("meta", META); ("scores", JList [scenario_output])]) ∧
  getitem scenario_output "optional" = Raise KeyError.
Proof.
  apply (end_to_end_scenario (H := sample_builtins) scenario_config
           (database_with scenario_line)
           {| f_text := scenario_line; f_fails := false; f_error := OSError |}
           scenario_line);
    vm_compute; reflexivity.
Defined.

(** Two runs on the scenario's file. *)
Lemma pipeline_deterministic_witness :
  let first := main (H := sample_builtins) scenario_config (database_with scenario_line) in
  let second := main (H := sample_builtins) scenario_config first.2 in
  second.1 = first.1 ∧
  second.2 = first.2 ∧
  fs_files second.2 !! OUTPUT_FILE scenario_config
  = fs_files first.2 !! OUTPUT_FILE scenario_config ∧
  (∀ fs', fs_files fs' !! DATABASE_PATH scenario_config
          = fs_files (database_with scenario_line) !! DATABASE_PATH scenario_config →
          OUTPUT_FILE scenario_config ∉ fs_locked (database_with scenario_line) →
          OUTPUT_FILE scenario_config ∉ fs_locked fs' →
          fs_cut fs' !! OUTPUT_FILE scenario_config
          = fs_cut (database_with scenario_line) !! OUTPUT_FILE scenario_config →
          (main (H := sample_builtins) scenario_config fs').1
          = (main (H := sample_builtins) scenario_config (database_with scenario_line)).1 ∧
          fs_files (main (H := sample_builtins) scenario_config fs').2
          !! OUTPUT_FILE scenario_config
          = match final_result (H := sample_builtins) scenario_config
                    (database_with scenario_line) with
            | Ok result =>
                Some {| f_text :=
                          written (fs_cut (database_with scenario_line)
                                   !! OUTPUT_FILE scenario_config)
                            (json_dumps (H := sample_builtins) result);
                        f_fails := false;
                        f_error := OSError |}
            | Raise _ => fs_files fs' !! OUTPUT_FILE scenario_config
            end).
Proof.
  apply (pipeline_deterministic (H := sample_builtins) scenario_config
           (database_with scenario_line)).
  vm_compute. reflexivity.
Defined.

Section policy.
Context `{PyBuiltins}.

(** C7: the scores the loop produces are the converted records the policy
    retains, in input order.  With the flag false none of them has the
    lamp FAILED; with the flag true every converted record is there,
    FAILED or not; in both cases they form a subsequence of the converted
    records.  The [scores] array of the document [main] writes is this
    list, computed from the target owner's records. *)
Theorem fail_preservation (preserve_fails : bool) (plays : list json) :
  ∃ scores,
    convert_scores preserve_fails plays [] = Ok scores ∧
    scores = filter (λ info, retained preserve_fails info) (omap converted plays) ∧
    scores `sublist_of` omap converted plays ∧
    (preserve_fails = false →
       Forall (λ info, getitem info "lamp" ≠ Ok (JStr "FAILED")) scores) ∧
    (preserve_fails = true → scores = omap converted plays) ∧
    (∀ cfg fs result,
       PRESERVE_FAILS cfg = preserve_fails →
       final_result cfg fs = Ok result →
       ∃ data_points plays_for_user score_results,
         load_plays_database fs (DATABASE_PATH cfg) = Ok data_points ∧
         filter_user_scores data_points (ASPHYXIA_PROFILE_ID cfg) = Ok plays_for_user ∧
         convert_scores preserve_fails plays_for_user [] = Ok score_results ∧
         result = JDict [("meta", META); ("scores", JList score_results)]).
Proof.
  eexists. split; [apply convert_scores_spec|]. simpl. split_and!.
  - done.
  - apply sublist_filter.
  - intros ->. apply Forall_forall. intros info [Hret Hin]%list_elem_of_filter.
    apply list_elem_of_omap in Hin as (play & _ & Hplay).
    apply converted_Some, convert_play_Some in Hplay
      as (score & positive & exscore & mid & time & x & lamp & y & difficulty
          & _ & _ & _ & _ & _ & _ & _ & _ & _ & ->).
    rewrite score_record_lamp. unfold retained in Hret. simpl in Hret.
    apply negb_prop_elim in Hret. intros [= ->]. by apply Hret.
  - intros ->. apply filter_all, Forall_true. done.
  - intros cfg fs result <-. unfold final_result.
    intros (data_points & Hload & (plays_for_user & Hfilter
            & (score_results & Hloop & [= <-])%bind_Ok)%bind_Ok)%bind_Ok.
    eauto 10.
Qed.
End policy.

(** ** The store model *)

Lemma grows_ret {A} (a : A) : grows (mret a).
Proof. intros st. exists []. simpl. by rewrite app_nil_r. Qed.

Lemma grows_reading {A} (f : store → result A) : grows (reading f).
Proof. intros st. exists []. simpl. by rewrite app_nil_r. Qed.

Lemma grows_bind {A B} (m : stM A) (f : A → stM B) :
  grows m → (∀ a, grows (f a)) → grows (m ≫= f).
Proof.
  intros Hm Hf st. unfold mbind, stM_bind.
  destruct (Hm st) as [fresh Hst]. destruct (m st) as [[a|e] st']; simpl in *.
  - destruct (Hf a st') as [fresh' Hst']. exists (fresh ++ fresh').
    by rewrite Hst', Hst, app_assoc.
  - eauto.
Qed.

Lemma dict_lookup_set {V} (k : string) (v : V) (entries : list (string * V)) :
  dict_lookup k (dict_set k v entries) = Some v.
Proof.
  induction entries as [|[k' v'] entries IH]; simpl.
  - by rewrite bool_decide_true.
  - destruct (bool_decide (k' = k)) eqn:Hk; simpl; by rewrite Hk.
Qed.

Lemma build_output_run (entries : list (string * val)) (exscore : option Z) (st : store) :
  (new_dict entries ≫= λ output,
     match exscore with
     | Some n =>
         if (0 <? n)%Z then
           empty ← new_dict [];
           _ ← assign_item output "optional" empty;
           inner ← reading (λ st, st_getitem st output "optional");
           _ ← assign_item inner "exScore" (VAtom (AInt n));
           mret (Some output)
         else mret (Some output)
     | None => mret (Some output)
     end) st
  = (Ok (Some (VRef (length st))),
     st ++ match exscore with
           | Some n =>
               if (0 <? n)%Z
               then [ODict (dict_set "optional" (VRef (S (length st))) entries);
                     ODict [("exScore", VAtom (AInt n))]]
               else [ODict entries]
           | None => [ODict entries]
           end).
Proof.
  unfold mbind, stM_bind, new_dict.
  destruct exscore as [n|]; [destruct (0 <? n)%Z|]; try done.
  unfold mbind, stM_bind, new_dict, assign_item, reading, st_setitem, st_getitem.
  rewrite length_app, Nat.add_1_r. simpl.
  rewrite <- app_assoc. simpl.
  rewrite (list_lookup_middle st _ _ (length st)) by done.
  rewrite (insert_app_r_alt st _ (length st)) by done.
  rewrite Nat.sub_diag. simpl.
  rewrite (list_lookup_middle st _ _ (length st)) by done.
  rewrite dict_lookup_set.
  rewrite (lookup_app_r st _ (S (length st))) by lia.
  replace (S (length st) - length st) with 1 by lia. simpl.
  rewrite (insert_app_r_alt st _ (S (length st))) by lia.
  replace (S (length st) - length st) with 1 by lia. done.
Qed.

Lemma grows_build_output (entries : list (string * val)) (exscore : option Z) :
  grows (new_dict entries ≫= λ output,
           match exscore with
           | Some n =>
               if (0 <? n)%Z then
                 empty ← new_dict [];
                 _ ← assign_item output "optional" empty;
                 inner ← reading (λ st, st_getitem st output "optional");
                 _ ← assign_item inner "exScore" (VAtom (AInt n));
                 mret (Some output)
               else mret (Some output)
           | None => mret (Some output)
           end).
Proof. intros st. rewrite build_output_run. eauto. Qed.

Ltac grows_step :=
  match goal with
  | |- grows (new_dict _ ≫= _) => apply grows_build_output
  | |- grows (_ ≫= _) => apply grows_bind; [|intros ?]
  | |- grows (reading _) => apply grows_reading
  | |- grows (mret _) => apply grows_ret
  | |- grows (if ?b then _ else _) => destruct b
  end.

Section store_facts.
Context `{PyBuiltins}.
Variable depth : nat.

Lemma st_convert_play_body_grows (play : val) : grows (st_convert_play_body depth play).
Proof. unfold st_convert_play_body. repeat grows_step. Qed.

Lemma st_convert_play_grows (play : val) : grows (st_convert_play depth play).
Proof.
  intros st. destruct (st_convert_play_body_grows play st) as [fresh Hst].
  exists fresh. unfold st_convert_play.
  by destruct (st_convert_play_body depth play st) as [[r|e] st'].
Qed.
End store_facts.

(** *** Reading trees back from the store *)

Lemma reify_extend (d : nat) (st fresh : store) (v : val) (j : json) :
  reify d st v = Some j → reify d (st ++ fresh) v = Some j.
Proof.
  revert v j. induction d as [|d IH]; intros [a|l] j; simpl; try done.
  destruct (st !! l) as [o|] eqn:Hl; [|done].
  rewrite (lookup_app_l_Some _ _ _ _ Hl).
  destruct o as [items|entries]; intros (js & Hjs & ->)%fmap_Some.
  - apply fmap_Some. exists js. split; [|done].
    apply mapM_Some. apply mapM_Some in Hjs.
    eapply Forall2_impl; [done|]. eauto.
  - apply fmap_Some. exists js. split; [|done].
    apply mapM_Some. apply mapM_Some in Hjs.
    eapply Forall2_impl; [done|]. intros [k x] kj. simpl.
    intros (jx & Hx & ->)%fmap_Some. apply fmap_Some. eauto.
Qed.

Lemma reify_deeper (d d' : nat) (st : store) (v : val) (j : json) :
  reify d st v = Some j → d ≤ d' → reify d' st v = Some j.
Proof.
  revert d' v j. induction d as [|d IH]; intros d' [a|l] j; simpl.
  - by destruct d'.
  - done.
  - by destruct d'.
  - intros Hj Hd. destruct d' as [|d']; [lia|]. simpl.
    destruct (st !! l) as [[items|entries]|]; [| |done].
    + apply fmap_Some in Hj as (js & Hjs & ->).
      apply fmap_Some. exists js. split; [|done].
      apply mapM_Some. apply mapM_Some in Hjs.
      eapply Forall2_impl; [done|]. intros x jx Hx. apply IH; [done|lia].
    + apply fmap_Some in Hj as (js & Hjs & ->).
      apply fmap_Some. exists js. split; [|done].
      apply mapM_Some. apply mapM_Some in Hjs.
      eapply Forall2_impl; [done|]. intros [k x] kj. simpl.
      intros (jx & Hx & ->)%fmap_Some. apply fmap_Some.
      exists jx. split; [|done]. apply IH; [done|lia].
Qed.


(** *** The store model computes what the tree model computes *)

Lemma stM_bind_reading {A B} (f : store → result A) (k : A → stM B) (st : store) :
  (reading f ≫= k) st
  = match f st with
    | Ok a => k a st
    | Raise e => (Raise e, st)
    end.
Proof. unfold mbind, stM_bind, reading. by destruct (f st). Qed.

Lemma reify_atom (d : nat) (st : store) (a : atom) (j : json) :
  reify d st (VAtom a) = Some j → j = JAtom a.
Proof. destruct d; simpl; congruence. Qed.

Lemma reify_ref (d : nat) (st : store) (l : loc) (j : json) :
  reify d st (VRef l) = Some j → ∀ a, j ≠ JAtom a.
Proof.
  destruct d as [|d]; simpl; [done|].
  destruct (st !! l) as [[items|entries]|]; [| |done];
    by intros (? & _ & ->)%fmap_Some.
Qed.

Lemma val_gt_zero_reify (d : nat) (st : store) (v : val) (j : json) :
  reify d st v = Some j → val_gt_zero v = py_gt_zero j.
Proof.
  destruct v as [a|l]; [by intros ->%reify_atom|].
  intros Hj. pose proof (reify_ref _ _ _ _ Hj) as Hna.
  destruct j as [a| |]; [by destruct (Hna a)|done..].
Qed.

Lemma val_table_contains_reify (d : nat) (st : store) (v : val) (j : json) tbl :
  reify d st v = Some j → val_table_contains v tbl = table_contains j tbl.
Proof.
  destruct v as [a|l]; [by intros ->%reify_atom|].
  intros Hj. pose proof (reify_ref _ _ _ _ Hj) as Hna.
  destruct j as [a| |]; [by destruct (Hna a)|done..].
Qed.

Lemma val_table_getitem_reify (d : nat) (st : store) (v : val) (j : json) tbl :
  reify d st v = Some j → val_table_getitem v tbl = table_getitem j tbl.
Proof.
  destruct v as [a|l]; [by intros ->%reify_atom|].
  intros Hj. pose proof (reify_ref _ _ _ _ Hj) as Hna.
  destruct j as [a| |]; [by destruct (Hna a)|done..].
Qed.

Lemma dict_lookup_reify (d : nat) (st : store) (k : string)
    (entries : list (string * val)) (jentries : list (string * json)) :
  Forall2 (λ e kj, (let '(k, x) := e in pair k <$> reify d st x) = Some kj)
    entries jentries →
  match dict_lookup k entries with
  | Some v => ∃ jv, dict_lookup k jentries = Some jv ∧ reify d st v = Some jv
  | None => dict_lookup k jentries = None
  end.
Proof.
  induction 1 as [|e kj entries jentries Hx _ IH]; [done|].
  destruct e as [k' x]. apply fmap_Some in Hx as (jx & Hx & ->). simpl.
  destruct (bool_decide (k' = k)); eauto.
Qed.

Lemma st_getitem_reify (d : nat) (st : store) (x : val) (j : json) (k : string) :
  reify (S d) st x = Some j → same_item d st (st_getitem st x k) (getitem j k).
Proof.
  destruct x as [a|l]; simpl; [by intros [= <-]|].
  destruct (st !! l) as [[items|entries]|]; [| |done].
  - by intros (? & _ & ->)%fmap_Some.
  - intros (jentries & Hes%mapM_Some & ->)%fmap_Some. simpl.
    pose proof (dict_lookup_reify d st k _ _ Hes) as Hk.
    destruct (dict_lookup k entries) as [v|].
    + destruct Hk as (jv & -> & Hv). simpl. eauto.
    + by rewrite Hk.
Qed.

Lemma st_get_reify (d : nat) (st : store) (x : val) (j : json) (k : string)
    (dv : val) (dj : json) :
  reify (S d) st x = Some j → reify d st dv = Some dj →
  same_item d st (st_get st x k dv) (py_get j k dj).
Proof.
  intros Hx Hd. destruct x as [a|l]; simpl in *; [by injection Hx as <-|].
  destruct (st !! l) as [[items|entries]|]; [| |done].
  - by apply fmap_Some in Hx as (? & _ & ->).
  - apply fmap_Some in Hx as (jentries & Hes%mapM_Some & ->). simpl.
    pose proof (dict_lookup_reify d st k _ _ Hes) as Hk.
    destruct (dict_lookup k entries) as [v|].
    + destruct Hk as (jv & -> & Hv). simpl. eauto.
    + rewrite Hk. simpl. eauto.
Qed.

Lemma stM_bind_if {A B} (b : bool) (f : store → result A) (a : A) (k : A → stM B)
    (st : store) :
  ((if b then reading f else mret a) ≫= k) st
  = match (if b then f st else Ok a) with
    | Ok x => k x st
    | Raise e => (Raise e, st)
    end.
Proof. destruct b; [apply stM_bind_reading | done]. Qed.

Lemma reify_VAtom (d : nat) (st : store) (a : atom) :
  reify d st (VAtom a) = Some (JAtom a).
Proof. by destruct d. Qed.

Lemma st_getitem_reify_any (d : nat) (st : store) (x : val) (j : json) (k : string) :
  reify d st x = Some j → same_item (pred d) st (st_getitem st x k) (getitem j k).
Proof.
  destruct d as [|d]; [|apply st_getitem_reify].
  destruct x; [|done]. by intros [= <-].
Qed.

Lemma st_get_reify_any (d : nat) (st : store) (x : val) (j : json) (k : string)
    (a : atom) :
  reify d st x = Some j →
  same_item (pred d) st (st_get st x k (VAtom a)) (py_get j k (JAtom a)).
Proof.
  destruct d as [|d]; [|intros Hx; apply st_get_reify; [done|apply reify_VAtom]].
  destruct x; [|done]. by intros [= <-].
Qed.

Section agreement.
Context `{PyBuiltins}.

Lemma val_int_reify (d : nat) (st : store) (v : val) (j : json) :
  reify d st v = Some j → val_int v = py_int j.
Proof.
  destruct v as [a|l]; [by intros ->%reify_atom|].
  intros Hj. pose proof (reify_ref _ _ _ _ Hj) as Hna.
  destruct j as [a| |]; [by destruct (Hna a)|done..].
Qed.

Lemma read_int (d : nat) (st : store) (x : val) (j : json) (k : string) :
  reify d st x = Some j →
  st_getitem st x k ≫= val_int = getitem j k ≫= py_int.
Proof.
  intros Hs%(st_getitem_reify_any _ _ _ _ k).
  destruct (st_getitem st x k) as [v|e]; simpl in Hs; [|by rewrite Hs].
  destruct Hs as (jv & -> & Hv). simpl. by eapply val_int_reify.
Qed.

Lemma read_str (d : nat) (st : store) (x : val) (j : json) (k : string) :
  reify d st x = Some j →
  st_getitem st x k ≫= st_str d st = py_str <$> getitem j k.
Proof.
  intros Hs%(st_getitem_reify_any _ _ _ _ k).
  destruct (st_getitem st x k) as [v|e]; simpl in Hs; [|by rewrite Hs].
  destruct Hs as (jv & -> & Hv). simpl. unfold st_str.
  by rewrite (reify_deeper _ d _ _ _ Hv) by lia.
Qed.

Lemma read_nested_int (d : nat) (st : store) (x : val) (j : json) (k k' : string) :
  reify d st x = Some j →
  (st_getitem st x k ≫= λ c, st_getitem st c k') ≫= val_int
  = (getitem j k ≫= λ c, getitem c k') ≫= py_int.
Proof.
  intros Hs%(st_getitem_reify_any _ _ _ _ k).
  destruct (st_getitem st x k) as [v|e]; simpl in Hs; [|by rewrite Hs].
  destruct Hs as (jv & -> & Hv). rewrite !bind_Ok_l. by eapply read_int.
Qed.

Lemma st_convert_play_body_agrees (depth : nat) (st : store) (play : val) (j : json) :
  reify depth st play = Some j →
  match st_convert_play_body depth play st with
  | (Ok r, st') => convert_play_body j = Ok (r ≫= reify 2 st')
  | (Raise e, _) => convert_play_body j = Raise e
  end.
Proof.
  intros Hplay. unfold st_convert_play_body, convert_play_body.
  rewrite stM_bind_reading, (read_int _ _ _ _ _ Hplay).
  destruct (getitem j "score" ≫= py_int) as [score|e]; [|done]. rewrite bind_Ok_l.
  (* exscore *)
  rewrite stM_bind_reading.
  pose proof (st_get_reify_any _ _ _ _ "exscore" (AInt 0) Hplay) as Hraw.
  destruct (st_get st play "exscore" (VAtom (AInt 0))) as [raw|e]; simpl in Hraw;
    [|by rewrite Hraw].
  destruct Hraw as (jraw & -> & Hraw). rewrite bind_Ok_l.
  rewrite stM_bind_reading, (val_gt_zero_reify _ _ _ _ Hraw).
  destruct (py_gt_zero jraw) as [positive|e]; [|done]. rewrite bind_Ok_l.
  rewrite stM_bind_if, (read_int _ _ _ _ _ Hplay).
  destruct (if positive then _ else _) as [exscore|e]; [|done]. rewrite bind_Ok_l.
  (* song id and time *)
  rewrite stM_bind_reading, (read_str _ _ _ _ _ Hplay).
  destruct (py_str <$> getitem j "mid") as [song_id|e]; [|done]. rewrite bind_Ok_l.
  rewrite stM_bind_reading, (read_nested_int _ _ _ _ _ _ Hplay).
  destruct ((getitem j "createdAt" ≫= _) ≫= py_int) as [time|e]; [|done].
  rewrite bind_Ok_l.
  (* clear type *)
  rewrite stM_bind_reading.
  pose proof (st_getitem_reify_any _ _ _ _ "clear" Hplay) as Hct.
  destruct (st_getitem st play "clear") as [ct|e]; simpl in Hct; [|by rewrite Hct].
  destruct Hct as (jct & -> & Hct). rewrite bind_Ok_l.
  rewrite stM_bind_reading, (val_table_contains_reify _ _ _ _ _ Hct).
  destruct (table_contains jct CLEAR_TYPE_MAP) as [known|e]; [|done].
  rewrite bind_Ok_l. destruct known; [|done]. change (negb true) with false. cbv iota.
  rewrite stM_bind_reading, (val_table_getitem_reify _ _ _ _ _ Hct).
  destruct (table_getitem jct CLEAR_TYPE_MAP) as [lamp|e]; [|done]. rewrite bind_Ok_l.
  (* difficulty *)
  rewrite stM_bind_reading.
  pose proof (st_getitem_reify_any _ _ _ _ "type" Hplay) as Hdt.
  destruct (st_getitem st play "type") as [dt|e]; simpl in Hdt; [|by rewrite Hdt].
  destruct Hdt as (jdt & -> & Hdt). rewrite bind_Ok_l.
  rewrite stM_bind_reading, (val_table_contains_reify _ _ _ _ _ Hdt).
  destruct (table_contains jdt DIFFICULTY_MAP) as [known|e]; [|done].
  rewrite bind_Ok_l. destruct known; [change (negb true) with false|
                                      change (negb false) with true]; cbv iota.
  2:{ rewrite stM_bind_reading.
      pose proof (st_getitem_reify_any _ _ _ _ "difficulty" Hplay) as Hd.
      destruct (st_getitem st play "difficulty") as [dv|e]; simpl in Hd;
        [|by rewrite Hd].
      by destruct Hd as (jd & -> & Hd). }
  rewrite stM_bind_reading, (val_table_getitem_reify _ _ _ _ _ Hdt).
  destruct (table_getitem jdt DIFFICULTY_MAP) as [difficulty|e]; [|done].
  rewrite bind_Ok_l, build_output_run.
  destruct exscore as [n|]; [destruct (0 <? n)%Z|]; simpl;
    rewrite (list_lookup_middle st _ _ (length st)) by done; simpl; try done.
  rewrite (lookup_app_r st _ (S (length st))) by lia.
  replace (S (length st) - length st) with 1 by lia. done.
Qed.

(** On a store where the record reads as the tree [j], the store model
    returns what the tree model returns for [j]. *)
Lemma st_convert_play_agrees (depth : nat) (st : store) (play : val) (j : json) :
  reify depth st play = Some j →
  ∃ r st',
    st_convert_play depth play st = (Ok r, st') ∧
    convert_play j = Ok (r ≫= reify 2 st').
Proof.
  intros Hagree%st_convert_play_body_agrees. unfold st_convert_play, convert_play.
  destruct (st_convert_play_body depth play st) as [[r|e] st']; rewrite Hagree; eauto.
Qed.
End agreement.

(** *** Every tree has a store representation *)

Lemma json_ind (P : json → Prop) :
  (∀ a, P (JAtom a)) →
  (∀ items, Forall P items → P (JList items)) →
  (∀ entries, Forall (λ kv, P kv.2) entries → P (JDict entries)) →
  ∀ x, P x.
Proof.
  intros Hatom Hlist Hdict. fix IH 1. intros [a|items|entries].
  - apply Hatom.
  - apply Hlist. induction items as [|x items IHitems]; constructor; [apply IH | done].
  - apply Hdict. induction entries as [|[k x] entries IHentries]; constructor;
      [apply IH | done].
Qed.

Lemma alloc_all_spec {A B} (f : A → store → B * store) (R : store → B → A → Prop)
    (xs : list A) :
  (∀ st fresh b a, R st b a → R (st ++ fresh) b a) →
  Forall (λ x, ∀ st, ∃ fresh, (f x st).2 = st ++ fresh ∧ R (st ++ fresh) (f x st).1 x) xs →
  ∀ st, ∃ fresh,
    (alloc_all f xs st).2 = st ++ fresh ∧
    Forall2 (R (st ++ fresh)) (alloc_all f xs st).1 xs.
Proof.
  intros Hmono. induction 1 as [|x xs Hx _ IH]; intros st; simpl.
  { exists []. by rewrite app_nil_r. }
  destruct (Hx st) as (fresh1 & Hst1 & Hv).
  destruct (f x st) as [v st1]. simpl in *. subst st1.
  destruct (IH (st ++ fresh1)) as (fresh2 & Hst2 & Hvs).
  destruct (alloc_all f xs (st ++ fresh1)) as [vs st2]. simpl in *. subst st2.
  exists (fresh1 ++ fresh2). rewrite app_assoc. split; [done|].
  constructor; [by apply Hmono | done].
Qed.

Lemma alloc_reify (x : json) (st : store) :
  ∃ fresh,
    (alloc x st).2 = st ++ fresh ∧
    ∀ d, json_depth x ≤ d → reify d (st ++ fresh) (alloc x st).1 = Some x.
Proof.
  revert st. induction x as [a|items IH|entries IH] using json_ind; intros st.
  - exists []. rewrite app_nil_r. split; [done|]. intros d _. by destruct d.
  - simpl.
    destruct (alloc_all_spec alloc
                (λ st v x, ∀ d, json_depth x ≤ d → reify d st v = Some x) items)
      with (st := st) as (fresh & Hst & Hvs).
    { intros st1 fresh1 v x Hv d Hd. by apply reify_extend, Hv. }
    { done. }
    destruct (alloc_all alloc items st) as [vs st1]. simpl in *. subst st1.
    exists (fresh ++ [OList vs]). rewrite app_assoc. split; [done|].
    intros [|d] Hd; [lia|]. simpl.
    rewrite (list_lookup_middle (st ++ fresh) [] _ (length (st ++ fresh))) by done.
    apply fmap_Some. exists items. split; [|done]. apply mapM_Some.
    assert (Forall (λ x, json_depth x ≤ d) items) as Hdepth.
    { apply Nat.succ_le_mono in Hd. clear -Hd.
      induction items as [|x items IH]; constructor; simpl in Hd; [lia|apply IH; lia]. }
    clear Hd IH. generalize [OList vs]. intros more.
    induction Hvs as [|v x vs items Hv Hvs IHvs]; [done|].
    inversion_clear Hdepth. constructor; [|by apply IHvs].
    by apply reify_extend, Hv.
  - simpl.
    destruct (alloc_all_spec
                (λ '(k, x) st, let '(v, st) := alloc x st in ((k, v), st))
                (λ st kv kx, kv.1 = kx.1 ∧
                   ∀ d, json_depth kx.2 ≤ d → reify d st kv.2 = Some kx.2) entries)
      with (st := st) as (fresh & Hst & Hvs).
    { intros st1 fresh1 kv kx [Hk Hv]. split; [done|].
      intros d Hd. by apply reify_extend, Hv. }
    { eapply Forall_impl; [done|]. intros [k x] Hx st1. simpl in Hx.
      destruct (Hx st1) as (fresh1 & Hst1 & Hv).
      destruct (alloc x st1) as [v st2]. simpl in *. eauto. }
    destruct (alloc_all _ entries st) as [es st1]. simpl in *. subst st1.
    exists (fresh ++ [ODict es]). rewrite app_assoc. split; [done|].
    intros [|d] Hd; [lia|]. simpl.
    rewrite (list_lookup_middle (st ++ fresh) [] _ (length (st ++ fresh))) by done.
    apply fmap_Some. exists entries. split; [|done]. apply mapM_Some.
    assert (Forall (λ kx, json_depth kx.2 ≤ d) entries) as Hdepth.
    { apply Nat.succ_le_mono in Hd. clear -Hd.
      induction entries as [|[k x] entries IH]; constructor; simpl in *;
        [lia|apply IH; lia]. }
    clear Hd IH. generalize [ODict es]. intros more.
    induction Hvs as [|[k v] [k' x] es entries [Hk Hv] Hvs IHvs]; [done|].
    inversion_clear Hdepth. simpl in *. subst k'. constructor; [|by apply IHvs].
    apply fmap_Some. exists x. split; [|done]. by apply reify_extend, Hv.
Qed.

Section frame.
Context `{PyBuiltins}.

(** The store model run on the objects of a tree [j]: it returns what
    the tree model returns for [j], and the record still reads as [j]. *)
Lemma st_convert_play_on_tree (depth : nat) (j : json) (st0 : store) :
  json_depth j ≤ depth →
  ∃ r st',
    st_convert_play depth (alloc j st0).1 (alloc j st0).2 = (Ok r, st') ∧
    convert_play j = Ok (r ≫= reify 2 st') ∧
    reify depth (alloc j st0).2 (alloc j st0).1 = Some j ∧
    reify depth st' (alloc j st0).1 = Some j.
Proof.
  intros Hd. destruct (alloc_reify j st0) as (fresh & Hst & Hj).
  specialize (Hj depth Hd). rewrite <- Hst in Hj.
  destruct (st_convert_play_agrees _ _ _ _ Hj) as (r & st' & Hrun & Hr).
  exists r, st'. split_and!; try done.
  destruct (st_convert_play_grows depth (alloc j st0).1 (alloc j st0).2)
    as [fresh' Hfresh].
  rewrite Hrun in Hfresh. simpl in Hfresh. rewrite Hfresh. by apply reify_extend.
Qed.

(** C10: run on any store and any record, [convert_play] leaves every
    object that existed before the call as it was: the final store is the
    initial one followed by the objects the call created, so each old
    address holds the same object and the tree read from the record (or
    from any other value) is the same after the call as before, whether
    the call returns a score record or [None]; and the value returned is
    the one the tree model computes from the record. *)
Theorem convert_play_preserves_input (depth : nat) (play : val) (st : store) :
  let st' := (st_convert_play depth play st).2 in
  (∃ fresh, st' = st ++ fresh) ∧
  (∀ l o, st !! l = Some o → st' !! l = Some o) ∧
  (∀ d v j, reify d st v = Some j → reify d st' v = Some j) ∧
  (∃ r, (st_convert_play depth play st).1 = Ok r) ∧
  (∀ j, reify depth st play = Some j →
        reify depth st' play = Some j ∧
        ∃ r, (st_convert_play depth play st).1 = Ok r ∧
             convert_play j = Ok (r ≫= reify 2 st')).
Proof.
  intros st'. subst st'.
  destruct (st_convert_play_grows depth play st) as [fresh Hfresh].
  split_and!.
  - eauto.
  - intros l o Hl. rewrite Hfresh. by apply lookup_app_l_Some.
  - intros d v j. rewrite Hfresh. apply reify_extend.
  - unfold st_convert_play.
    destruct (st_convert_play_body depth play st) as [[r|e] st']; simpl; eauto.
  - intros j Hj. split; [rewrite Hfresh; by apply reify_extend|].
    destruct (st_convert_play_agrees _ _ _ _ Hj) as (r & st' & -> & Hr). eauto.
Qed.
End frame.

(** The record of the scenario with secondary score 120, built in an
    empty store and converted there. *)
Example store_scenario :
  let '(play, st) := alloc (scenario_record_with (JInt 120)) [] in
  let '(r, st') := st_convert_play (H := sample_builtins) 8 play st in
  reify 8 st play = Some (scenario_record_with (JInt 120)) ∧
  reify 8 st' play = Some (scenario_record_with (JInt 120)) ∧
  (r ≫= λ out, Ok (out ≫= reify 2 st'))
  = convert_play (H := sample_builtins) (scenario_record_with (JInt 120)) ∧
  convert_play (H := sample_builtins) (scenario_record_with (JInt 120))
  = Ok (Some (score_record "42" 9000000 "CLEAR" "NOV" 1700000000000 (Some 120%Z))).
Proof. vm_compute. done. Qed.

(** * Further properties *)

(** ** The run and the file system *)

Section run_effects.
Context `{PyBuiltins}.

Lemma final_result_raise (cfg : config) (fs : filesystem) (e : exc) :
  final_result cfg fs = Raise e ↔ load_plays_database fs (DATABASE_PATH cfg) = Raise e.
Proof.
  rewrite final_result_spec.
  destruct (load_plays_database fs (DATABASE_PATH cfg)); simpl; split; congruence.
Qed.

(** X1: an exception leaves [main] only when the loader raised it, and
    the file system is then as it was before the run (the output file has
    not been opened, so a previous output is intact).  The exception is
    the [OSError] of a database that cannot be opened, what [json.loads]
    raised on a line it rejects, the error of a failing read, or the
    [AttributeError] of a line that parses to a value that is no
    object. *)
Theorem main_raises_only_from_loader (cfg : config) (fs : filesystem) (e : exc) :
  (main cfg fs).1 = Raise e →
  load_plays_database fs (DATABASE_PATH cfg) = Raise e ∧
  (main cfg fs).2 = fs ∧
  ((fs_files fs !! DATABASE_PATH cfg = None ∧ e = OSError) ∨
   ∃ db_file,
     fs_files fs !! DATABASE_PATH cfg = Some db_file ∧
     ((∃ line, line ∈ file_lines db_file ∧ json_loads line = None ∧
               e = json_loads_error line) ∨
      (f_fails db_file = true ∧ e = f_error db_file) ∨
      (f_fails db_file = false ∧ e = AttributeError ∧
       ∃ line x, line ∈ text_lines (f_text db_file) ∧
                 json_loads line = Some x ∧ is_dict x = false))).
Proof.
  rewrite main_cases.
  destruct (final_result cfg fs) as [result|e'] eqn:Hfinal; simpl; [done|].
  intros [= ->]. apply final_result_raise in Hfinal.
  split_and!; try done. revert Hfinal. rewrite load_plays_database_cases.
  destruct (fs_files fs !! DATABASE_PATH cfg) as [db_file|]; [|naive_solver].
  intros He. right. exists db_file. split; [done|].
  destruct (mapM parse_line (file_lines db_file)) as [data_points|e'] eqn:Hparse.
  - destruct (f_fails db_file) eqn:Hfail; [naive_solver|].
    rewrite (file_lines_reads _ Hfail) in Hparse.
    apply mapM_parse_line_Ok, mapM_Some in Hparse.
    destruct (forallb is_dict data_points) eqn:Hd; [done|].
    injection He as <-. right. right. split_and!; try done.
    assert (¬ Forall (λ x, is_dict x) data_points) as Hnot.
    { intros Hall%forallb_True. by rewrite Hd in Hall. }
    apply not_Forall_Exists in Hnot; [|apply _].
    apply Exists_exists in Hnot as (x & [i Hi]%list_elem_of_lookup & Hx).
    destruct (Forall2_lookup_r _ _ _ _ _ Hparse Hi) as (line & Hline & Hloads).
    exists line, x. split_and!; try done.
    + by eapply list_elem_of_lookup_2.
    + apply not_true_is_false. intros Hdict. apply Hx. by rewrite Hdict.
  - injection He as ->.
    apply mapM_parse_line_Raise in Hparse
      as (before & bad & after & Hlines & _ & Hrejected & ->).
    left. exists bad. split_and!; try done.
    rewrite Hlines. apply elem_of_app. right. left.
Qed.

(** X2: [main] changes no file but the output file, and never changes
    which paths can be written: every other path, the database among them
    when it is not the output path, opens after the run exactly as
    before. *)
Theorem main_touches_only_output (cfg : config) (fs : filesystem) (path : string) :
  path ≠ OUTPUT_FILE cfg →
  fs_files (main cfg fs).2 !! path = fs_files fs !! path ∧
  open_read (main cfg fs).2 path = open_read fs path ∧
  fs_locked (main cfg fs).2 = fs_locked fs.
Proof.
  intros Hpath. rewrite main_cases. unfold open_read.
  destruct (final_result cfg fs) as [result|e]; simpl; [|done].
  case_bool_decide; simpl; [done|]. by rewrite lookup_insert_ne.
Qed.

(** X3: when the output path cannot be opened for writing, the error of
    [save_results] stays inside it: the run ends as the loader ended
    (normally when the load succeeded) and the file system is unchanged. *)
Theorem main_locked_output (cfg : config) (fs : filesystem) :
  OUTPUT_FILE cfg ∈ fs_locked fs →
  (main cfg fs).2 = fs ∧
  (main cfg fs).1 = (load_plays_database fs (DATABASE_PATH cfg) ≫= λ _, Ok ()) ∧
  ∀ result, save_results result (OUTPUT_FILE cfg) fs = (Ok (), fs).
Proof.
  intros Hlock. rewrite main_cases, final_result_spec.
  split_and!.
  - destruct (load_plays_database fs (DATABASE_PATH cfg)); simpl; [|done].
    by rewrite bool_decide_true.
  - by destruct (load_plays_database fs (DATABASE_PATH cfg)).
  - intros result. unfold save_results, write_text. by rewrite bool_decide_true.
Qed.

(** X4: when the load succeeds and the output path can be opened for
    writing, the run ends normally, whether the writing completes or not,
    and the output file then opens and reads to its end.  When the writing
    completes the file holds the compact JSON text of the document whose
    scores are the retained conversions of the target owner's records, in
    file order; when the writing is cut short the file holds the first
    characters of that text, and the failure stays inside
    [save_results]. *)
Theorem main_writes_document (cfg : config) (fs : filesystem) (data_points : list json) :
  load_plays_database fs (DATABASE_PATH cfg) = Ok data_points →
  OUTPUT_FILE cfg ∉ fs_locked fs →
  let text :=
    json_dumps
      (JDict [("meta", META);
              ("scores",
               JList (filter (λ info, retained (PRESERVE_FAILS cfg) info)
                        (omap converted
                           (filter (λ point,
                              field_is point "__refid" (ASPHYXIA_PROFILE_ID cfg)
                              && field_is point "__s" "plugins_profile")
                              data_points))))]) in
  (main cfg fs).1 = Ok () ∧
  open_read (main cfg fs).2 (OUTPUT_FILE cfg)
  = Ok {| f_text := written (fs_cut fs !! OUTPUT_FILE cfg) text;
          f_fails := false;
          f_error := OSError |} ∧
  (fs_cut fs !! OUTPUT_FILE cfg = None →
   open_read (main cfg fs).2 (OUTPUT_FILE cfg)
   = Ok {| f_text := text; f_fails := false; f_error := OSError |}) ∧
  (∀ n, fs_cut fs !! OUTPUT_FILE cfg = Some n →
        (write_text fs (OUTPUT_FILE cfg) text).1 = Raise OSError ∧
        open_read (main cfg fs).2 (OUTPUT_FILE cfg)
        = Ok {| f_text := text_prefix n text; f_fails := false; f_error := OSError |}).
Proof.
  intros Hload Hfree text.
  assert (main cfg fs
          = (Ok (), {| fs_files :=
                         <[OUTPUT_FILE cfg :=
                             {| f_text := written (fs_cut fs !! OUTPUT_FILE cfg) text;
                                f_fails := false;
                                f_error := OSError |}]>
                           (fs_files fs);
                       fs_locked := fs_locked fs;
                       fs_cut := fs_cut fs |})) as ->.
  { rewrite main_cases, final_result_spec, Hload. simpl.
    by rewrite bool_decide_false by done. }
  unfold open_read, write_text. simpl. rewrite lookup_insert_eq.
  split_and!; try done.
  - by intros ->.
  - intros n ->. by rewrite bool_decide_false by done.
Qed.
End run_effects.

(** ** More on [convert_play] *)

Lemma table_getitem_label (x : json) (tbl : int_table) (label : string) :
  table_getitem x tbl = Ok label → label ∈ tbl.*2.
Proof.
  destruct x as [a| |]; simpl; [|done..].
  induction tbl as [|[k l] tbl IH]; simpl; [done|].
  destruct (atom_eq_int a k).
  - intros [= ->]. left.
  - intros Hl. right. by apply IH.
Qed.

(** [x.get(k, d)] in terms of [x[k]]. *)
Lemma py_get_as_getitem (x : json) (k : string) (d : json) :
  py_get x k d
  = match getitem x k with
    | Ok v => Ok v
    | Raise KeyError => Ok d
    | Raise _ => Raise AttributeError
    end.
Proof.
  destruct x as [| |entries]; simpl; try done.
  by destruct (dict_lookup k entries).
Qed.

Lemma dict_lookup_set_ne {V} (k k' : string) (v : V) (entries : list (string * V)) :
  k ≠ k' → dict_lookup k' (dict_set k v entries) = dict_lookup k' entries.
Proof.
  intros Hk. induction entries as [|[k0 v0] entries IH]; simpl.
  - by rewrite bool_decide_false.
  - destruct (bool_decide (k0 = k)) eqn:Hk0; simpl.
    + apply bool_decide_eq_true in Hk0 as ->. by rewrite bool_decide_false.
    + by rewrite IH.
Qed.

Lemma lamp_label_inj (c c' : Z) (lamp : string) :
  lamp_label c = Some lamp → lamp_label c' = Some lamp → c = c'.
Proof.
  intros Hc Hc'.
  pose proof (lamp_label_range _ _ Hc). pose proof (lamp_label_range _ _ Hc').
  assert (c = 1 ∨ c = 2 ∨ c = 3 ∨ c = 4 ∨ c = 5 ∨ c = 6)%Z as Hcs by lia.
  assert (c' = 1 ∨ c' = 2 ∨ c' = 3 ∨ c' = 4 ∨ c' = 5 ∨ c' = 6)%Z as Hcs' by lia.
  destruct Hcs as [->|[->|[->|[->|[->| ->]]]]];
    destruct Hcs' as [->|[->|[->|[->|[->| ->]]]]]; simpl in *; congruence.
Qed.

Lemma difficulty_label_inj (d d' : Z) (difficulty : string) :
  difficulty_label d = Some difficulty → difficulty_label d' = Some difficulty → d = d'.
Proof.
  intros Hd Hd'.
  pose proof (difficulty_label_range _ _ Hd).
  pose proof (difficulty_label_range _ _ Hd').
  assert (d = 0 ∨ d = 1 ∨ d = 2 ∨ d = 3 ∨ d = 4)%Z as Hds by lia.
  assert (d' = 0 ∨ d' = 1 ∨ d' = 2 ∨ d' = 3 ∨ d' = 4)%Z as Hds' by lia.
  destruct Hds as [->|[->|[->|[-> | ->]]]];
    destruct Hds' as [->|[->|[->|[-> | ->]]]]; simpl in *; congruence.
Qed.

Section convert_more.
Context `{PyBuiltins}.

(** Two records that yield the same records convert alike. *)
Lemma convert_play_ext (p q : json) :
  (∀ out, convert_play p = Ok (Some out) ↔ convert_play q = Ok (Some out)) →
  convert_play p = convert_play q.
Proof.
  intros Hpq.
  destruct (convert_play_returns p) as [[out|] Hp].
  - rewrite Hp. symmetry. by apply Hpq.
  - rewrite Hp. symmetry. apply convert_play_not_Some.
    intros out Hq%Hpq. congruence.
Qed.

(** X5: a record [convert_play] yields has the shape of the import
    schema: the six keys [matchType], [identifier], [score], [lamp],
    [difficulty], [timeAchieved] in this order, with the constant match
    type, a string identifier, integer score and time, a lamp and a
    difficulty that are labels of the two tables; and either nothing else
    or, last, an [optional] dict holding only [exScore], an integer that
    is at least 1. *)
Theorem converted_record_schema (play out : json) :
  convert_play play = Ok (Some out) →
  ∃ song_id score lamp difficulty time_achieved,
    let base := [("matchType", JStr "sdvxInGameID");
                 ("identifier", JStr song_id);
                 ("score", JInt score);
                 ("lamp", JStr lamp);
                 ("difficulty", JStr difficulty);
                 ("timeAchieved", JInt time_achieved)] in
    (out = JDict base ∨
     ∃ n, (1 ≤ n)%Z ∧ out = JDict (base ++ [("optional", JDict [("exScore", JInt n)])])) ∧
    lamp ∈ CLEAR_TYPE_MAP.*2 ∧
    difficulty ∈ DIFFICULTY_MAP.*2.
Proof.
  intros (score & positive & exscore & mid & time & x & lamp & y & difficulty
          & _ & _ & _ & _ & _ & _ & Hlamp & _ & Hdiff & ->)%convert_play_Some.
  exists (py_str mid), score, lamp, difficulty, time. cbv zeta. split_and!.
  - unfold score_record. destruct exscore as [n|]; [|by left].
    destruct (0 <? n)%Z eqn:Hn; [|by left].
    right. exists n. split; [|done]. apply Z.ltb_lt in Hn. lia.
  - by apply (table_getitem_label x).
  - by apply (table_getitem_label y).
Qed.

(** X6: the conversion reads the fields [score], [exscore], [mid],
    [createdAt], [clear] and [type] only: two records that agree on these
    six lookups convert to the same result, whatever else they hold. *)
Theorem convert_play_relevant_fields (p q : json) :
  (∀ k, k ∈ ["score"; "exscore"; "mid"; "createdAt"; "clear"; "type"] →
        getitem p k = getitem q k) →
  convert_play p = convert_play q.
Proof.
  intros Hk. apply convert_play_ext. intros out.
  rewrite !convert_play_Some, !py_get_as_getitem.
  rewrite (Hk "score"), (Hk "exscore"), (Hk "mid"), (Hk "createdAt"),
    (Hk "clear"), (Hk "type") by (repeat constructor). done.
Qed.

(** X7: a record without [exscore] converts exactly as the same record
    with [exscore] set to 0. *)
Theorem missing_exscore_is_zero (entries : list (string * json)) :
  dict_lookup "exscore" entries = None →
  convert_play (JDict entries)
  = convert_play (JDict (dict_set "exscore" (JInt 0) entries)).
Proof.
  intros Hmiss. apply convert_play_ext. intros out.
  rewrite !convert_play_Some. simpl.
  rewrite Hmiss, dict_lookup_set, !dict_lookup_set_ne by done.
  split; intros (score & positive & exscore & mid & time & ct & lamp & dt & difficulty
                 & Hscore & Hpos & Hrest);
    simpl in Hpos; injection Hpos as <-;
    by exists score, false, exscore, mid, time, ct, lamp, dt, difficulty.
Qed.

(** X8: the lamp of a converted record determines the clear code of its
    source, and the difficulty determines the type code: two records
    converted to the same lamp (difficulty) hold the same clear (type)
    code. *)
Theorem labels_determine_codes (p q out_p out_q : json) :
  convert_play p = Ok (Some out_p) →
  convert_play q = Ok (Some out_q) →
  (getitem out_p "lamp" = getitem out_q "lamp" →
   ∃ c x y, getitem p "clear" = Ok x ∧ getitem q "clear" = Ok y ∧
            has_code x c = true ∧ has_code y c = true) ∧
  (getitem out_p "difficulty" = getitem out_q "difficulty" →
   ∃ d x y, getitem p "type" = Ok x ∧ getitem q "type" = Ok y ∧
            has_code x d = true ∧ has_code y d = true).
Proof.
  intros (? & ? & ? & ? & ? & xp & lp & yp & dp
          & _ & _ & _ & _ & _ & Hxp & Hlp & Hyp & Hdp & ->)%convert_play_Some.
  intros (? & ? & ? & ? & ? & xq & lq & yq & dq
          & _ & _ & _ & _ & _ & Hxq & Hlq & Hyq & Hdq & ->)%convert_play_Some.
  rewrite !score_record_lamp.
  apply clear_table_label in Hlp as (cp & Hcp & Hlp).
  apply clear_table_label in Hlq as (cq & Hcq & Hlq).
  apply difficulty_table_label in Hdp as (ep & Hep & Hdp).
  apply difficulty_table_label in Hdq as (eq & Heq & Hdq).
  split.
  - intros [= <-]. assert (cq = cp) as -> by eauto using lamp_label_inj. eauto 10.
  - unfold score_record. simpl. intros [= <-].
    assert (eq = ep) as -> by eauto using difficulty_label_inj. eauto 10.
Qed.

(** X9: the branch for an unknown difficulty.  When everything before it
    succeeds and the [type] value is in no way a key of the difficulty
    table, the statements of the [try] end as the lookup of the field
    [difficulty] (which the warning formats) ends: with the [return None]
    when the record has such a field, with a [KeyError] for the handler
    when it has not; the record is skipped in both cases. *)
Theorem unknown_difficulty_path (play : json) score positive exscore mid time x y :
  getitem play "score" ≫= py_int = Ok score →
  py_get play "exscore" (JInt 0) ≫= py_gt_zero = Ok positive →
  (if positive : bool
   then Some <$> (getitem play "exscore" ≫= py_int)
   else Ok None) = Ok exscore →
  getitem play "mid" = Ok mid →
  (getitem play "createdAt" ≫= λ c, getitem c "$$date") ≫= py_int = Ok time →
  getitem play "clear" = Ok x →
  table_contains x CLEAR_TYPE_MAP = Ok true →
  getitem play "type" = Ok y →
  table_contains y DIFFICULTY_MAP = Ok false →
  convert_play_body play = (getitem play "difficulty" ≫= λ _, Ok None) ∧
  (getitem play "difficulty" = Raise KeyError → convert_play_body play = Raise KeyError) ∧
  convert_play play = Ok None.
Proof.
  intros Hscore (ev & Hev & Hpos)%bind_Ok Hexs Hmid Htime Hx Hknown Hy Hunknown.
  assert (convert_play_body play = (getitem play "difficulty" ≫= λ _, Ok None)) as Hbody.
  { unfold convert_play_body.
    rewrite Hscore, Hev. simpl. rewrite Hpos. simpl. rewrite Hexs. simpl.
    rewrite Hmid. simpl. rewrite Htime. simpl. rewrite Hx. simpl.
    rewrite Hknown. simpl.
    apply table_contains_true in Hknown as [lamp ->]. simpl.
    rewrite Hy. simpl. by rewrite Hunknown. }
  split_and!; [done| |].
  - intros Hmissing. by rewrite Hbody, Hmissing.
  - unfold convert_play. rewrite Hbody. by destruct (getitem play "difficulty").
Qed.
End convert_more.

(** ** More on the loop, the loader and the filter *)

Lemma length_omap_le {A B} (f : A → option B) (xs : list A) :
  length (omap f xs) ≤ length xs.
Proof.
  induction xs as [|x xs IH]; csimpl; [done|].
  destruct (f x); csimpl; lia.
Qed.

Lemma filter_iff_on {A} (P Q : A → Prop) `{∀ x, Decision (P x), ∀ x, Decision (Q x)}
    (xs : list A) :
  Forall (λ x, P x ↔ Q x) xs → filter P xs = filter Q xs.
Proof.
  induction 1 as [|x xs Hx _ IH]; [done|].
  rewrite !filter_cons, IH. destruct (decide (P x)), (decide (Q x)); tauto.
Qed.

Lemma filter_none {A} (P : A → Prop) `{∀ x, Decision (P x)} (xs : list A) :
  Forall (λ x, ¬ P x) xs → filter P xs = [].
Proof.
  induction 1 as [|x xs Hx _ IH]; [done|].
  by rewrite filter_cons_False, IH.
Qed.

Lemma field_is_unique (x : json) (k s s' : string) :
  field_is x k s = true → field_is x k s' = true → s = s'.
Proof.
  destruct x as [| |entries]; simpl; try done.
  destruct (dict_lookup k entries) as [[[| | | |t]| |]|]; try done.
  intros ->%bool_decide_eq_true ->%bool_decide_eq_true. done.
Qed.

Lemma field_is_dict (x : json) (k s : string) : field_is x k s = true → is_dict x = true.
Proof. by destruct x. Qed.

Section loop_more.
Context `{PyBuiltins}.

(** X10: the loop converts each record on its own: the scores of two
    batches put end to end are the scores of the first followed by the
    scores of the second, and a batch never yields more scores than it has
    records. *)
Theorem convert_scores_app (preserve_fails : bool) (plays more score_results : list json) :
  convert_scores preserve_fails (plays ++ more) score_results
  = (convert_scores preserve_fails plays score_results
     ≫= convert_scores preserve_fails more) ∧
  ∃ first second,
    convert_scores preserve_fails plays [] = Ok first ∧
    convert_scores preserve_fails more [] = Ok second ∧
    convert_scores preserve_fails (plays ++ more) [] = Ok (first ++ second) ∧
    length first ≤ length plays.
Proof.
  split.
  - rewrite (convert_scores_spec _ plays), bind_Ok_l, !convert_scores_spec.
    by rewrite omap_app, filter_app, app_assoc.
  - eexists _, _. rewrite !convert_scores_spec. split_and!; try done.
    + by rewrite omap_app, filter_app.
    + simpl. etrans; [apply length_filter|apply length_omap_le].
Qed.

(** X11: the flag only removes records: the scores obtained with the
    flag false are those obtained with the flag true minus the ones whose
    lamp is FAILED, in the same order. *)
Theorem preserve_fails_only_removes (plays : list json) :
  ∃ all kept,
    convert_scores true plays [] = Ok all ∧
    convert_scores false plays [] = Ok kept ∧
    kept = filter (λ info, negb (field_is info "lamp" "FAILED")) all ∧
    kept `sublist_of` all ∧
    (∀ info, info ∈ all → info ∉ kept → getitem info "lamp" = Ok (JStr "FAILED")).
Proof.
  eexists _, _. rewrite !convert_scores_spec. simpl.
  rewrite (filter_all (λ info, retained true info)) by (apply Forall_true; done).
  split_and!; try done.
  - apply sublist_filter.
  - intros info (play & Hplays & Hplay)%list_elem_of_omap Hkept.
    apply converted_Some in Hplay. pose proof Hplay as Hin.
    apply convert_play_Some in Hplay
      as (score & positive & exscore & mid & time & x & lamp & y & difficulty
          & _ & _ & _ & _ & _ & _ & _ & _ & _ & ->).
    rewrite score_record_lamp.
    destruct (decide (lamp = "FAILED")) as [->|Hne]; [done|].
    destruct Hkept. apply list_elem_of_filter. split.
    + unfold retained, field_is, score_record. simpl.
      by rewrite bool_decide_false.
    + apply list_elem_of_omap. eexists. split; [done|by apply converted_Some].
Qed.

Lemma loaded_are_music (fs : filesystem) (db_path : string) (plays : list json) :
  load_plays_database fs db_path = Ok plays →
  Forall (λ x, field_is x "collection" "music") plays.
Proof.
  rewrite load_plays_database_cases.
  destruct (fs_files fs !! db_path) as [db_file|]; [|done].
  destruct (mapM parse_line _) as [data_points|]; [|done].
  destruct (f_fails db_file); [done|].
  destruct (forallb is_dict data_points); [|done].
  intros [= <-]. apply Forall_forall. by intros x [Hx _]%list_elem_of_filter.
Qed.

(** X12: the filter accepts whatever the loader returns: applied to a
    loaded list it never raises, and the records it keeps are objects of
    the loaded list, in order, each with [collection] ["music"], [__refid]
    the target identifier and [__s] ["plugins_profile"]. *)
Theorem load_then_filter (fs : filesystem) (db_path profile_id : string)
    (data_points : list json) :
  load_plays_database fs db_path = Ok data_points →
  ∃ plays_for_user,
    filter_user_scores data_points profile_id = Ok plays_for_user ∧
    plays_for_user `sublist_of` data_points ∧
    Forall (λ point, is_dict point = true ∧
                     field_is point "collection" "music" = true ∧
                     field_is point "__refid" profile_id = true ∧
                     field_is point "__s" "plugins_profile" = true) plays_for_user.
Proof.
  intros Hload. pose proof (loaded_are_dicts _ _ _ Hload) as Hdicts.
  pose proof (loaded_are_music _ _ _ Hload) as Hmusic.
  eexists. split_and!.
  - apply filter_result_total. eapply Forall_impl; [exact Hdicts|].
    intros point Hp. by apply is_user_score_dict, Is_true_true.
  - apply sublist_filter.
  - apply Forall_forall. intros point [[Hr Hs]%andb_True Hin]%list_elem_of_filter.
    rewrite Forall_forall in Hdicts, Hmusic.
    split_and!; apply Is_true_true; auto.
Qed.

(** X13: filtering is idempotent, and the selections for two different
    target identifiers are disjoint: on records, filtering the kept
    records again for the same identifier keeps them all, and filtering
    them for another identifier keeps none. *)
Theorem filter_user_scores_again (scores kept : list json) (profile_id other_id : string) :
  Forall (λ point, is_dict point) scores →
  filter_user_scores scores profile_id = Ok kept →
  filter_user_scores kept profile_id = Ok kept ∧
  (other_id ≠ profile_id → filter_user_scores kept other_id = Ok []).
Proof.
  intros Hdicts Hkept.
  assert (kept = filter (λ point, field_is point "__refid" profile_id
                                  && field_is point "__s" "plugins_profile") scores)
    as Hspec.
  { unfold filter_user_scores in Hkept.
    rewrite (filter_result_total _ (λ point, field_is point "__refid" profile_id
                                     && field_is point "__s" "plugins_profile"))
      in Hkept; [congruence|].
    eapply Forall_impl; [done|].
    intros point Hp. by apply is_user_score_dict, Is_true_true. }
  assert (Forall (λ point, field_is point "__refid" profile_id
                           && field_is point "__s" "plugins_profile") kept) as Hall.
  { rewrite Hspec. apply Forall_forall. by intros point [? _]%list_elem_of_filter. }
  assert (∀ pid, filter_user_scores kept pid
                 = Ok (filter (λ point, field_is point "__refid" pid
                                        && field_is point "__s" "plugins_profile") kept))
    as Hfilter.
  { intros pid. apply filter_result_total. eapply Forall_impl; [done|].
    intros point [Hr _]%andb_True. apply is_user_score_dict.
    by eapply field_is_dict, Is_true_true. }
  split.
  - rewrite Hfilter. f_equal. by apply filter_all.
  - intros Hother. rewrite Hfilter. f_equal. apply filter_none.
    eapply Forall_impl; [done|].
    intros point [Hr _]%andb_True [Hr' _]%andb_True. apply Hother.
    apply Is_true_true in Hr, Hr'. by eapply field_is_unique.
Qed.
End loop_more.

(** ** The record returned shares nothing with the input *)





Section fresh_output.
Context `{PyBuiltins}.


End fresh_output.

(** ** The further properties on the scenario *)

(** The run on the database whose bytes stop decoding after the
    scenario's line. *)
Lemma main_raises_only_from_loader_witness :
  load_plays_database (H := sample_builtins) undecodable_database
    (DATABASE_PATH scenario_config) = Raise UnicodeDecodeError ∧
  (main (H := sample_builtins) scenario_config undecodable_database).2
  = undecodable_database ∧
  ((fs_files undecodable_database !! DATABASE_PATH scenario_config = None
    ∧ UnicodeDecodeError = OSError) ∨
   ∃ db_file,
     fs_files undecodable_database !! DATABASE_PATH scenario_config = Some db_file ∧
     ((∃ line, line ∈ file_lines db_file ∧ @json_loads sample_builtins line = None ∧
               UnicodeDecodeError = @json_loads_error sample_builtins line) ∨
      (f_fails db_file = true ∧ UnicodeDecodeError = f_error db_file) ∨
      (f_fails db_file = false ∧ UnicodeDecodeError = AttributeError ∧
       ∃ line x, line ∈ text_lines (f_text db_file) ∧
                 @json_loads sample_builtins line = Some x ∧ is_dict x = false))).
Proof.
  apply (main_raises_only_from_loader (H := sample_builtins) scenario_config
           undecodable_database UnicodeDecodeError).
  vm_compute. reflexivity.
Defined.

(** The database file after the scenario's run. *)
Lemma main_touches_only_output_witness :
  fs_files (main (H := sample_builtins) scenario_config (database_with scenario_line)).2
    !! "sdvx@asphyxia.db"
  = fs_files (database_with scenario_line) !! "sdvx@asphyxia.db" ∧
  open_read (main (H := sample_builtins) scenario_config (database_with scenario_line)).2
    "sdvx@asphyxia.db"
  = open_read (database_with scenario_line) "sdvx@asphyxia.db" ∧
  fs_locked (main (H := sample_builtins) scenario_config (database_with scenario_line)).2
  = fs_locked (database_with scenario_line).
Proof.
  apply (main_touches_only_output (H := sample_builtins) scenario_config
           (database_with scenario_line) "sdvx@asphyxia.db").
  discriminate.
Defined.

(** The scenario's run when the output path is locked. *)
Lemma main_locked_output_witness :
  (main (H := sample_builtins) scenario_config (locked_database_with scenario_line)).2
  = locked_database_with scenario_line ∧
  (main (H := sample_builtins) scenario_config (locked_database_with scenario_line)).1
  = (load_plays_database (H := sample_builtins) (locked_database_with scenario_line)
       (DATABASE_PATH scenario_config) ≫= λ _, Ok ()) ∧
  ∀ result,
    save_results (H := sample_builtins) result (OUTPUT_FILE scenario_config)
      (locked_database_with scenario_line)
    = (Ok (), locked_database_with scenario_line).
Proof.
  apply (main_locked_output (H := sample_builtins) scenario_config
           (locked_database_with scenario_line)).
  change ("output.json" ∈ ({["output.json"]} : gset string)).
  apply elem_of_singleton. reflexivity.
Defined.

(** The output file after the scenario's run, when the writing stops
    after ten characters. *)
Lemma main_writes_document_witness :
  let text :=
    json_dumps (H := sample_builtins)
      (JDict [("meta", META);
              ("scores",
               JList (filter (λ info, retained (PRESERVE_FAILS scenario_config) info)
                        (omap (converted (H := sample_builtins))
                           (filter (λ point,
                              field_is point "__refid"
                                (ASPHYXIA_PROFILE_ID scenario_config)
                              && field_is point "__s" "plugins_profile")
                              [scenario_record]))))]) in
  (main (H := sample_builtins) scenario_config (cut_database_with scenario_line 10)).1
  = Ok () ∧
  open_read
    (main (H := sample_builtins) scenario_config (cut_database_with scenario_line 10)).2
    (OUTPUT_FILE scenario_config)
  = Ok {| f_text :=
            written (fs_cut (cut_database_with scenario_line 10)
                     !! OUTPUT_FILE scenario_config) text;
          f_fails := false;
          f_error := OSError |} ∧
  (fs_cut (cut_database_with scenario_line 10) !! OUTPUT_FILE scenario_config = None →
   open_read
     (main (H := sample_builtins) scenario_config (cut_database_with scenario_line 10)).2
     (OUTPUT_FILE scenario_config)
   = Ok {| f_text := text; f_fails := false; f_error := OSError |}) ∧
  (∀ n, fs_cut (cut_database_with scenario_line 10) !! OUTPUT_FILE scenario_config
        = Some n →
        (write_text (cut_database_with scenario_line 10) (OUTPUT_FILE scenario_config)
           text).1 = Raise OSError ∧
        open_read
          (main (H := sample_builtins) scenario_config
             (cut_database_with scenario_line 10)).2
          (OUTPUT_FILE scenario_config)
        = Ok {| f_text := text_prefix n text; f_fails := false; f_error := OSError |}).
Proof.
  apply (main_writes_document (H := sample_builtins) scenario_config
           (cut_database_with scenario_line 10) [scenario_record]).
  - vm_compute. reflexivity.
  - apply not_elem_of_empty.
Defined.

(** The schema on the scenario's record. *)
Lemma converted_record_schema_witness :
  ∃ song_id score lamp difficulty time_achieved,
    let base := [("matchType", JStr "sdvxInGameID");
                 ("identifier", JStr song_id);
                 ("score", JInt score);
                 ("lamp", JStr lamp);
                 ("difficulty", JStr difficulty);
                 ("timeAchieved", JInt time_achieved)] in
    (scenario_output = JDict base ∨
     ∃ n, (1 ≤ n)%Z ∧
          scenario_output = JDict (base ++ [("optional", JDict [("exScore", JInt n)])])) ∧
    lamp ∈ CLEAR_TYPE_MAP.*2 ∧
    difficulty ∈ DIFFICULTY_MAP.*2.
Proof.
  apply (converted_record_schema (H := sample_builtins) scenario_record scenario_output).
  reflexivity.
Defined.

(** The scenario's record and the record made of its six fields. *)
Lemma convert_play_relevant_fields_witness :
  convert_play (H := sample_builtins) scenario_record
  = convert_play (H := sample_builtins) scenario_core_record.
Proof.
  apply (convert_play_relevant_fields (H := sample_builtins)
           scenario_record scenario_core_record).
  intros k Hk.
  repeat (apply elem_of_cons in Hk as [->|Hk]; [reflexivity|]).
  by apply elem_of_nil in Hk.
Defined.

(** The scenario's fields without secondary score. *)
Lemma missing_exscore_is_zero_witness :
  convert_play (H := sample_builtins) (JDict scenario_entries_without_exscore)
  = convert_play (H := sample_builtins)
      (JDict (dict_set "exscore" (JInt 0) scenario_entries_without_exscore)).
Proof.
  apply (missing_exscore_is_zero (H := sample_builtins) scenario_entries_without_exscore).
  reflexivity.
Defined.

(** The scenario's record and the same record with the codes written as
    the float 2.0 and the boolean false. *)
Lemma labels_determine_codes_witness :
  (getitem scenario_output "lamp" = getitem scenario_output "lamp" →
   ∃ c x y, getitem scenario_record "clear" = Ok x ∧
            getitem (scenario_record_of (JInt 0) (JFloat two) (JBool false)) "clear" = Ok y ∧
            has_code x c = true ∧ has_code y c = true) ∧
  (getitem scenario_output "difficulty" = getitem scenario_output "difficulty" →
   ∃ d x y, getitem scenario_record "type" = Ok x ∧
            getitem (scenario_record_of (JInt 0) (JFloat two) (JBool false)) "type" = Ok y ∧
            has_code x d = true ∧ has_code y d = true).
Proof.
  apply (labels_determine_codes (H := sample_builtins) scenario_record
           (scenario_record_of (JInt 0) (JFloat two) (JBool false))
           scenario_output scenario_output).
  - reflexivity.
  - vm_compute. reflexivity.
Defined.

(** The scenario's record with the difficulty code 9. *)
Lemma unknown_difficulty_path_witness :
  convert_play_body (H := sample_builtins) (scenario_record_of (JInt 0) (JInt 2) (JInt 9))
  = (getitem (scenario_record_of (JInt 0) (JInt 2) (JInt 9)) "difficulty" ≫= λ _, Ok None) ∧
  (getitem (scenario_record_of (JInt 0) (JInt 2) (JInt 9)) "difficulty" = Raise KeyError →
   convert_play_body (H := sample_builtins) (scenario_record_of (JInt 0) (JInt 2) (JInt 9))
   = Raise KeyError) ∧
  convert_play (H := sample_builtins) (scenario_record_of (JInt 0) (JInt 2) (JInt 9))
  = Ok None.
Proof.
  apply (unknown_difficulty_path (H := sample_builtins)
           (scenario_record_of (JInt 0) (JInt 2) (JInt 9))
           9000000%Z false None (JStr "42") 1700000000000%Z (JInt 2) (JInt 9));
    reflexivity.
Defined.

(** The loader's list for the scenario's file, filtered for U1. *)
Lemma load_then_filter_witness :
  ∃ plays_for_user,
    filter_user_scores [scenario_record] "U1" = Ok plays_for_user ∧
    plays_for_user `sublist_of` [scenario_record] ∧
    Forall (λ point, is_dict point = true ∧
                     field_is point "collection" "music" = true ∧
                     field_is point "__refid" "U1" = true ∧
                     field_is point "__s" "plugins_profile" = true) plays_for_user.
Proof.
  apply (load_then_filter (H := sample_builtins) (database_with scenario_line)
           "sdvx@asphyxia.db" "U1" [scenario_record]).
  vm_compute. reflexivity.
Defined.

(** The scenario's record and an empty record, filtered for U1, then again
    for U1 and for U2. *)
Lemma filter_user_scores_again_witness :
  filter_user_scores [scenario_record] "U1" = Ok [scenario_record] ∧
  ("U2" ≠ "U1" → filter_user_scores [scenario_record] "U2" = Ok []).
Proof.
  apply (filter_user_scores_again [scenario_record; JDict []] [scenario_record] "U1" "U2").
  - repeat constructor.
  - reflexivity.
Defined.


(** ** A bound on the scores *)

Section bounds.
Context `{PyBuiltins}.

(** X15: the document never holds more scores than the database file has
    lines; in particular an empty database gives a document with no
    score. *)
Theorem scores_bounded_by_lines (cfg : config) (fs : filesystem) (db_file : file)
    (result : json) :
  fs_files fs !! DATABASE_PATH cfg = Some db_file →
  final_result cfg fs = Ok result →
  ∃ scores,
    result = JDict [("meta", META); ("scores", JList scores)] ∧
    length scores ≤ length (text_lines (f_text db_file)) ∧
    (f_text db_file = EmptyString → scores = []).
Proof.
  intros Hfile. rewrite final_result_spec, load_plays_database_cases, Hfile.
  destruct (mapM parse_line _) as [data_points|] eqn:Hparse; [|done].
  destruct (f_fails db_file) eqn:Hfail; [done|].
  rewrite (file_lines_reads _ Hfail) in Hparse.
  destruct (forallb is_dict data_points); [|done].
  simpl. intros [= <-]. eexists. split; [done|].
  apply mapM_parse_line_Ok, mapM_Some, Forall2_length in Hparse.
  match goal with
  | |- length ?l ≤ _ ∧ _ =>
      assert (length l ≤ length (text_lines (f_text db_file))) as Hlen
  end.
  { rewrite Hparse.
    etrans; [apply length_filter|]. etrans; [apply length_omap_le|].
    etrans; [apply length_filter|]. apply length_filter. }
  split; [done|]. intros Hempty. rewrite Hempty in Hlen. simpl in Hlen.
  apply length_zero_iff_nil. lia.
Qed.
End bounds.

(** The scenario's database file: one line, one score. *)
Lemma scores_bounded_by_lines_witness :
  ∃ scores,
    JDict [("meta", META); ("scores", JList [scenario_output])]
    = JDict [("meta", META); ("scores", JList scores)] ∧
    length scores ≤ length (text_lines scenario_line) ∧
    (scenario_line = EmptyString → scores = []).
Proof.
  apply (scores_bounded_by_lines (H := sample_builtins) scenario_config
           (database_with scenario_line)
           {| f_text := scenario_line; f_fails := false; f_error := OSError |}).
  - vm_compute. reflexivity.
  - vm_compute. reflexivity.
Defined.
